(** * Smart home controller (main.js): devices, commands, invoker,
      security proxy, heating strategy and chat room.

    The JavaScript objects are mutable and shared by reference: a command
    keeps the device it was built with, the house keeps the same device in
    its [devices] array, a sensor keeps its observers.  The embedding
    therefore puts the device objects in a store indexed by reference and
    threads one [World] through every method, in a state-and-exception
    monad in which the state survives a thrown [TypeError], as it does in
    JavaScript. *)

From stdpp Require Import gmap strings list fin_maps pretty.

Open Scope string_scope.
Open Scope list_scope.

(** ** Data model *)

Module Model.

(** A reference to an object of the store. *)
Abbreviation ref := nat (only parsing).

(** [class HeatingStrategy], [EcoMode], [ComfortMode] (lines 270-284). *)
Inductive HeatingStrategy : Type :=
  | EcoMode
  | ComfortMode.

Definition HeatingStrategy_heat (s : HeatingStrategy) : string :=
  match s with
  | EcoMode => "Eco mode: Heating to 18C"
  | ComfortMode => "Comfort mode: Heating to 22C"
  end.

(** [class OldDevice] (lines 359-371). *)
Record OldDevice : Type := mkOldDevice { old_name : string }.

Definition oldTurnOn (o : OldDevice) : string :=
  "Old device " +:+ old_name o +:+ " activated".

Definition oldTurnOff (o : OldDevice) : string :=
  "Old device " +:+ old_name o +:+ " deactivated".

(** The fields every [Device] has (lines 42-47).  [observers] holds
    references to [HeatingSystem] objects, the only class of the program
    with an [update] method. *)
Record DeviceBase : Type := mkBase {
  name : string;
  isOn : bool;
  observers : list ref
}.

(** The four subclasses of [Device], each with the field it adds. *)
Inductive Device : Type :=
  | Light (b : DeviceBase)
  | Door (b : DeviceBase) (locked : bool)
  | TemperatureSensor (b : DeviceBase) (temp : Z)
  | DeviceAdapter (b : DeviceBase) (oldDevice : OldDevice).

Definition base (d : Device) : DeviceBase :=
  match d with
  | Light b | Door b _ | TemperatureSensor b _ | DeviceAdapter b _ => b
  end.

Definition with_base (f : DeviceBase -> DeviceBase) (d : Device) : Device :=
  match d with
  | Light b => Light (f b)
  | Door b l => Door (f b) l
  | TemperatureSensor b t => TemperatureSensor (f b) t
  | DeviceAdapter b o => DeviceAdapter (f b) o
  end.

(** [device.isLocked]: [undefined] (here [None]) on every class but [Door]. *)
Definition isLocked (d : Device) : option bool :=
  match d with
  | Door _ l => Some l
  | _ => None
  end.

(** [device.temperature]: [undefined] on every class but the sensor. *)
Definition temperature (d : Device) : option Z :=
  match d with
  | TemperatureSensor _ t => Some t
  | _ => None
  end.

(** [this.isOn = v] *)
Definition set_isOn (v : bool) (d : Device) : Device :=
  with_base (fun b => mkBase (name b) v (observers b)) d.

(** [this.isLocked = v]: the assignment in [Door.lock] and [Door.unlock];
    these methods are reached on [Door] objects only. *)
Definition set_isLocked (v : bool) (d : Device) : Device :=
  match d with
  | Door b _ => Door b v
  | _ => d
  end.

(** [this.temperature = t]: the assignment in
    [TemperatureSensor.setTemperature]. *)
Definition set_temperature (t : Z) (d : Device) : Device :=
  match d with
  | TemperatureSensor b _ => TemperatureSensor b t
  | _ => d
  end.

(** [this.observers.push(o)] *)
Definition push_observer (o : ref) (d : Device) : Device :=
  with_base (fun b => mkBase (name b) (isOn b) (observers b ++ [o])) d.

(** The numbers handed to [setTemperature]: the safe integers of
    JavaScript ([Number.isSafeInteger]), those of magnitude at most
    2^53 - 1.  Each of them is a number of the language, is stored as it
    is, and is printed by [`${temp}`] as its decimal digits, with a minus
    sign when negative.  Fractions, [NaN], the infinities and larger
    magnitudes, which print in other ways, are not covered. *)
Definition MAX_SAFE_INTEGER : Z := 9007199254740991.

Definition isSafeInteger (z : Z) : bool :=
  (Z.abs z <=? MAX_SAFE_INTEGER)%Z.

Record SafeInteger : Type := safe_integer {
  number : Z;
  number_safe : isSafeInteger number = true
}.

(** The safe integer written [z]. *)
Abbreviation reading z := (safe_integer z eq_refl).

(** [class User] (lines 311-314): a user has a name and no other state. *)
Record User : Type := mkUser { user_name : string }.

(** The objects that are handed to [RemoteControl.pressButton]: the four
    subclasses of [Command] (lines 113-171), each keeping the device it
    was built with, and the two wrappers [SecurityProxy] and [LogCommand]
    (lines 194-223), each keeping the command it wraps.  The proxy's
    [house] is the single house of the world. *)
Inductive Command : Type :=
  | LightOnCommand (light : ref)
  | LightOffCommand (light : ref)
  | DoorLockCommand (door : ref)
  | DoorUnlockCommand (door : ref)
  | SecurityProxy (command : Command)
  | LogCommand (command : Command).

(** Everything the program can reach.
    - [heap]: the [Device] objects, by reference;
    - [heaters]: the [strategy] field of each [HeatingSystem] object, by
      reference; an object not yet written to has the strategy its
      constructor gives it ([EcoMode], line 288);
    - [remotes]: the [history] array of each [RemoteControl] object, by
      reference, oldest command first; an object not yet written to has
      the empty history of its constructor (line 176).  The [commands]
      array of the constructor is never used;
    - [devices], [users]: the two arrays of the single [House]
      (the constructor returns [House.instance] once it exists);
    - [chat_users]: the [users] array of the house's [HouseChatRoom];
    - [system_log], [chat_log]: the lines handed to [House.systemLog] and
      [House.chatLog], oldest first, without the clock time that
      [systemLog] puts in front for display;
    - [updates]: the calls [observer.update(device)] made so far, oldest
      first, each with the observer called and the fields the device had
      at the moment of the call. *)
Record World : Type := mkWorld {
  heap : gmap nat Device;
  heaters : gmap nat HeatingStrategy;
  remotes : gmap nat (list Command);
  devices : list ref;
  users : list User;
  chat_users : list User;
  system_log : list string;
  chat_log : list string;
  updates : list (ref * Device)
}.

Definition set_heap (h : gmap nat Device) (w : World) : World :=
  mkWorld h (heaters w) (remotes w) (devices w) (users w) (chat_users w)
          (system_log w) (chat_log w) (updates w).

Definition set_heaters (h : gmap nat HeatingStrategy) (w : World) : World :=
  mkWorld (heap w) h (remotes w) (devices w) (users w) (chat_users w)
          (system_log w) (chat_log w) (updates w).

Definition set_remotes (r : gmap nat (list Command)) (w : World) : World :=
  mkWorld (heap w) (heaters w) r (devices w) (users w) (chat_users w)
          (system_log w) (chat_log w) (updates w).

Definition set_devices (l : list ref) (w : World) : World :=
  mkWorld (heap w) (heaters w) (remotes w) l (users w) (chat_users w)
          (system_log w) (chat_log w) (updates w).

Definition set_users (l : list User) (w : World) : World :=
  mkWorld (heap w) (heaters w) (remotes w) (devices w) l (chat_users w)
          (system_log w) (chat_log w) (updates w).

Definition set_chat_users (l : list User) (w : World) : World :=
  mkWorld (heap w) (heaters w) (remotes w) (devices w) (users w) l
          (system_log w) (chat_log w) (updates w).

Definition set_system_log (l : list string) (w : World) : World :=
  mkWorld (heap w) (heaters w) (remotes w) (devices w) (users w)
          (chat_users w) l (chat_log w) (updates w).

Definition set_chat_log (l : list string) (w : World) : World :=
  mkWorld (heap w) (heaters w) (remotes w) (devices w) (users w)
          (chat_users w) (system_log w) l (updates w).

Definition set_updates (l : list (ref * Device)) (w : World) : World :=
  mkWorld (heap w) (heaters w) (remotes w) (devices w) (users w)
          (chat_users w) (system_log w) (chat_log w) l.

(** The world before [initApp]: a house with empty arrays. *)
Definition empty_world : World :=
  mkWorld ∅ ∅ ∅ [] [] [] [] [] [].

End Model.

Export Model.

(** ** The monad of methods *)

Module Js.

(** The one exception the modelled code can raise: calling a method an
    object does not have, or reading a field of [undefined]. *)
Inductive Error : Type :=
  | TypeError.

Inductive Outcome (A : Type) : Type :=
  | Ret (a : A)
  | Throw (e : Error).

Arguments Ret {A} a.
Arguments Throw {A} e.

(** A method body: it runs in a world and leaves a world, whether it
    returns or throws. *)
Definition M (A : Type) : Type := World -> Outcome A * World.

Definition ret {A} (a : A) : M A := fun w => (Ret a, w).

Definition throw {A} (e : Error) : M A := fun w => (Throw e, w).

Definition bind {A B} (m : M A) (k : A -> M B) : M B :=
  fun w =>
    match m w with
    | (Ret a, w') => k a w'
    | (Throw e, w') => (Throw e, w')
    end.

(** Reading something off the world. *)
Definition gets {A} (f : World -> A) : M A := fun w => (Ret (f w), w).

Definition modify (f : World -> World) : M unit := fun w => (Ret tt, f w).

Declare Scope js_scope.
Delimit Scope js_scope with js.

Notation "'let!' x ':=' m 'in' k" := (bind m (fun x => k))
  (at level 10, x name, m at level 100, k at level 200,
   format "'[v' 'let!'  x  ':='  m  'in' '/' k ']'") : js_scope.

Notation "m ';;' k" := (bind m (fun _ => k))
  (at level 100, k at level 200, right associativity) : js_scope.

Open Scope js_scope.

(** [array.forEach(f)] on an array that [f] does not change. *)
Fixpoint forEach {A} (f : A -> M unit) (l : list A) : M unit :=
  match l with
  | [] => ret tt
  | x :: l' => f x ;; forEach f l'
  end.

End Js.

Export Js.

(** ** Devices and their observers *)

Module Devices.

(** Using a reference: [undefined] has no fields and no methods. *)
Definition deref (a : ref) : M Device :=
  fun w =>
    match heap w !! a with
    | Some d => (Ret d, w)
    | None => (Throw TypeError, w)
    end.

(** A field assignment on the object behind [a]. *)
Definition assign (a : ref) (f : Device -> Device) : M unit :=
  let! d := deref a in
  modify (fun w => set_heap (<[a := f d]> (heap w)) w).

(** [House.prototype.systemLog] (lines 392-401), as far as the program's
    state goes: one more line in the system log. *)
Definition House_systemLog (message : string) : M unit :=
  modify (fun w => set_system_log (system_log w ++ [message]) w).

(** [House.prototype.chatLog] (lines 403-411). *)
Definition House_chatLog (message : string) : M unit :=
  modify (fun w => set_chat_log (chat_log w ++ [message]) w).

(** *** [class HeatingSystem] (lines 286-309) *)

(** [this.strategy] *)
Definition strategy (this : ref) (w : World) : HeatingStrategy :=
  default EcoMode (heaters w !! this).

Definition HeatingSystem_setStrategy (this : ref) (s : HeatingStrategy)
  : M unit :=
  modify (fun w => set_heaters (<[this := s]> (heaters w)) w).

Definition HeatingSystem_heat (this : ref) : M string :=
  let! s := gets (strategy this) in
  ret (HeatingStrategy_heat s).

(** [update(device)]: [device instanceof TemperatureSensor] is the match
    on the class of the object; any other value falls through. *)
Definition HeatingSystem_update (this : ref) (device : ref) : M unit :=
  let! d := gets (fun w => heap w !! device) in
  match d with
  | Some (TemperatureSensor _ t) =>
      if (t <? 18)%Z then
        HeatingSystem_setStrategy this ComfortMode ;;
        let! h := HeatingSystem_heat this in
        House_systemLog ("Heating system activated: " +:+ h)
      else
        HeatingSystem_setStrategy this EcoMode
  | _ => ret tt
  end.

(** *** [class Device] (lines 42-56) *)

Definition Device_addObserver (this : ref) (observer : ref) : M unit :=
  assign this (push_observer observer).

(** One call [observer.update(this)]: the call is written down in
    [updates] with what the observer can read from the device, then the
    observer's method runs. *)
Definition call_update (this : ref) (observer : ref) : M unit :=
  let! d := deref this in
  modify (fun w => set_updates (updates w ++ [(observer, d)]) w) ;;
  HeatingSystem_update observer this.

Definition Device_notifyObservers (this : ref) : M unit :=
  let! d := deref this in
  forEach (call_update this) (observers (base d)).

(** *** [class Light] (lines 58-74) *)

Definition Light_turnOn (this : ref) : M string :=
  assign this (set_isOn true) ;;
  Device_notifyObservers this ;;
  let! d := deref this in
  ret ("Light " +:+ name (base d) +:+ " turned on").

Definition Light_turnOff (this : ref) : M string :=
  assign this (set_isOn false) ;;
  Device_notifyObservers this ;;
  let! d := deref this in
  ret ("Light " +:+ name (base d) +:+ " turned off").

(** *** [class Door] (lines 76-93) *)

Definition Door_lock (this : ref) : M string :=
  assign this (set_isLocked true) ;;
  Device_notifyObservers this ;;
  let! d := deref this in
  ret ("Door " +:+ name (base d) +:+ " locked").

Definition Door_unlock (this : ref) : M string :=
  assign this (set_isLocked false) ;;
  Device_notifyObservers this ;;
  let! d := deref this in
  ret ("Door " +:+ name (base d) +:+ " unlocked").

(** *** [class TemperatureSensor] (lines 95-106) *)

Definition TemperatureSensor_setTemperature (this : ref) (temp : SafeInteger)
  : M string :=
  assign this (set_temperature (number temp)) ;;
  Device_notifyObservers this ;;
  let! d := deref this in
  ret ("Temperature sensor " +:+ name (base d) +:+ " updated to "
       +:+ pretty (number temp) +:+ "C").

(** *** [class DeviceAdapter] (lines 373-390) *)

Definition DeviceAdapter_turnOn (this : ref) : M string :=
  assign this (set_isOn true) ;;
  Device_notifyObservers this ;;
  let! d := deref this in
  match d with
  | DeviceAdapter _ o => ret (oldTurnOn o)
  | _ => throw TypeError
  end.

Definition DeviceAdapter_turnOff (this : ref) : M string :=
  assign this (set_isOn false) ;;
  Device_notifyObservers this ;;
  let! d := deref this in
  match d with
  | DeviceAdapter _ o => ret (oldTurnOff o)
  | _ => throw TypeError
  end.

(** *** Method calls

    [x.turnOn()] runs the method of the class of [x]; a class without
    the method makes the call a [TypeError]. *)

Definition turnOn (x : ref) : M string :=
  let! d := deref x in
  match d with
  | Light _ => Light_turnOn x
  | DeviceAdapter _ _ => DeviceAdapter_turnOn x
  | _ => throw TypeError
  end.

Definition turnOff (x : ref) : M string :=
  let! d := deref x in
  match d with
  | Light _ => Light_turnOff x
  | DeviceAdapter _ _ => DeviceAdapter_turnOff x
  | _ => throw TypeError
  end.

Definition lock (x : ref) : M string :=
  let! d := deref x in
  match d with
  | Door _ _ => Door_lock x
  | _ => throw TypeError
  end.

Definition unlock (x : ref) : M string :=
  let! d := deref x in
  match d with
  | Door _ _ => Door_unlock x
  | _ => throw TypeError
  end.

Definition setTemperature (x : ref) (temp : SafeInteger) : M string :=
  let! d := deref x in
  match d with
  | TemperatureSensor _ _ => TemperatureSensor_setTemperature x temp
  | _ => throw TypeError
  end.

End Devices.

Export Devices.

(** ** The house: registry of devices and users (lines 1-40) *)

Module Registry.

(** [array.find(device => device.name === name)] over references: the
    first reference whose object has the name; reading [.name] of a
    reference to nothing throws. *)
Fixpoint find_device (h : gmap nat Device) (nm : string) (l : list ref)
  : Outcome (option ref) :=
  match l with
  | [] => Ret None
  | a :: l' =>
      match h !! a with
      | None => Throw TypeError
      | Some d =>
          if bool_decide (name (base d) = nm) then Ret (Some a)
          else find_device h nm l'
      end
  end.

Definition House_findDevice (nm : string) : M (option ref) :=
  fun w => (find_device (heap w) nm (devices w), w).

Definition House_findUser (nm : string) : M (option User) :=
  fun w =>
    (Ret (List.find (fun user => bool_decide (user_name user = nm)) (users w)),
     w).

Definition House_addDevice (device : ref) : M unit :=
  modify (fun w => set_devices (devices w ++ [device]) w).

Definition HouseChatRoom_addUser (user : User) : M unit :=
  modify (fun w => set_chat_users (chat_users w ++ [user]) w).

Definition House_addUser (user : User) : M unit :=
  modify (fun w => set_users (users w ++ [user]) w) ;;
  HouseChatRoom_addUser user.

(** The names in the two arrays, in insertion order. *)
Definition device_names (w : World) : list (option string) :=
  map (fun a => name ∘ base <$> heap w !! a) (devices w).

Definition user_names (w : World) : list string :=
  map user_name (users w).

End Registry.

Export Registry.

(** ** Commands, their wrappers and the remote control *)

Module Commands.

(** [command.constructor.name] *)
Definition constructor_name (c : Command) : string :=
  match c with
  | LightOnCommand _ => "LightOnCommand"
  | LightOffCommand _ => "LightOffCommand"
  | DoorLockCommand _ => "DoorLockCommand"
  | DoorUnlockCommand _ => "DoorUnlockCommand"
  | SecurityProxy _ => "SecurityProxy"
  | LogCommand _ => "LogCommand"
  end.

(** [command instanceof LightOffCommand] *)
Definition instanceof_LightOffCommand (c : Command) : bool :=
  match c with
  | LightOffCommand _ => true
  | _ => false
  end.

(** Truth value of a field that is a boolean or [undefined]. *)
Definition truthy (v : option bool) : bool :=
  match v with
  | Some b => b
  | None => false
  end.

Definition security_warning : string :=
  "Security Warning: Cannot turn off lights while front door is unlocked".

(** The test of [SecurityProxy.execute] (lines 201-206): does the
    method leave with the warning? *)
Definition SecurityProxy_refuses (command : Command) : M bool :=
  if instanceof_LightOffCommand command then
    let! frontDoor := House_findDevice "Front Door" in
    match frontDoor with
    | Some a =>
        let! d := deref a in
        ret (negb (truthy (isLocked d)))
    | None => ret false
    end
  else ret false.

(** [command.execute()] *)
Fixpoint Command_execute (c : Command) : M string :=
  match c with
  | LightOnCommand light => turnOn light
  | LightOffCommand light => turnOff light
  | DoorLockCommand door => lock door
  | DoorUnlockCommand door => unlock door
  | SecurityProxy command =>
      let! refused := SecurityProxy_refuses command in
      if (refused : bool) then ret security_warning
      else Command_execute command
  | LogCommand command =>
      House_systemLog ("Executing command: " +:+ constructor_name command) ;;
      let! result := Command_execute command in
      House_systemLog ("Command result: " +:+ result) ;;
      ret result
  end.

(** [command.undo()].  [SecurityProxy] and [LogCommand] are declared
    without extending [Command] and define [execute] only: on them
    [undo] is not a function. *)
Definition Command_undo (c : Command) : M string :=
  match c with
  | LightOnCommand light => turnOff light
  | LightOffCommand light => turnOn light
  | DoorLockCommand door => unlock door
  | DoorUnlockCommand door => lock door
  | SecurityProxy _ => throw TypeError
  | LogCommand _ => throw TypeError
  end.

(** *** [class RemoteControl] (lines 173-192) *)

(** [this.history] *)
Definition history (this : ref) (w : World) : list Command :=
  default [] (remotes w !! this).

Definition set_history (this : ref) (l : list Command) : M unit :=
  modify (fun w => set_remotes (<[this := l]> (remotes w)) w).

(** [this.history.push(command)] *)
Definition history_push (this : ref) (command : Command) : M unit :=
  let! h := gets (history this) in
  set_history this (h ++ [command]).

(** [this.history.pop()], called on a history that is not empty. *)
Definition history_pop (this : ref) : M Command :=
  let! h := gets (history this) in
  match List.last (map Some h) None with
  | Some command =>
      set_history this (removelast h) ;;
      ret command
  | None => throw TypeError
  end.

Definition RemoteControl_pressButton (this : ref) (command : Command)
  : M string :=
  let! result := Command_execute command in
  history_push this command ;;
  ret result.

Definition no_commands : string := "No commands to undo".

Definition RemoteControl_undo (this : ref) : M string :=
  let! h := gets (history this) in
  if (0 <? length h)%nat then
    let! command := history_pop this in
    Command_undo command
  else ret no_commands.

(** *** [class SmartHomeFacade] (lines 225-268), with its [remote] *)

Definition SmartHomeFacade_leaveHome (remote : ref) : M (list string) :=
  let! livingRoomLight := House_findDevice "Living Room Light" in
  let! results1 :=
    match livingRoomLight with
    | Some light =>
        let! r := RemoteControl_pressButton remote
                    (LogCommand (SecurityProxy (LightOffCommand light))) in
        ret [r]
    | None => ret []
    end in
  let! frontDoor := House_findDevice "Front Door" in
  let! results2 :=
    match frontDoor with
    | Some door =>
        let! r := RemoteControl_pressButton remote
                    (LogCommand (DoorLockCommand door)) in
        ret (results1 ++ [r])
    | None => ret results1
    end in
  House_systemLog "Left home mode activated" ;;
  ret results2.

Definition SmartHomeFacade_arriveHome (remote : ref) : M (list string) :=
  let! frontDoor := House_findDevice "Front Door" in
  let! results1 :=
    match frontDoor with
    | Some door =>
        let! r := RemoteControl_pressButton remote
                    (LogCommand (DoorUnlockCommand door)) in
        ret [r]
    | None => ret []
    end in
  let! livingRoomLight := House_findDevice "Living Room Light" in
  let! results2 :=
    match livingRoomLight with
    | Some light =>
        let! r := RemoteControl_pressButton remote
                    (LogCommand (LightOnCommand light)) in
        ret (results1 ++ [r])
    | None => ret results1
    end in
  House_systemLog "Arrived home mode activated" ;;
  ret results2.

End Commands.

Export Commands.

(** ** Users and the chat room (lines 311-357) *)

Module Chat.

(** The line [`[${from} -> ${to}]: ${message}`]. *)
Definition chat_line (from message to : string) : string :=
  "[" +:+ from +:+ " -> " +:+ to +:+ "]: " +:+ message.

Definition HouseChatRoom_displayMessage (from message to : string) : M unit :=
  House_chatLog (chat_line from message to).

Definition User_receiveMessage (this : User) (from message : string)
  : M unit :=
  HouseChatRoom_displayMessage from message (user_name this).

Definition HouseChatRoom_sendMessage (from : User) (to message : string)
  : M unit :=
  let! registered := gets chat_users in
  if bool_decide (to = "all") then
    forEach
      (fun user =>
         if negb (bool_decide (user_name user = user_name from)) then
           User_receiveMessage user (user_name from) message
         else ret tt)
      registered ;;
    HouseChatRoom_displayMessage (user_name from) message "all"
  else
    match List.find (fun user => bool_decide (user_name user = to))
                    registered with
    | Some recipient =>
        User_receiveMessage recipient (user_name from) message ;;
        HouseChatRoom_displayMessage (user_name from) message to
    | None => ret tt
    end.

Definition User_sendMessage (this : User) (to message : string) : M unit :=
  HouseChatRoom_sendMessage this to message.

End Chat.

Export Chat.

(** ** The application's start-up (lines 487-509, 551-553) *)

Module App.

(** What the constructors leave in a new object (lines 43-47, 79, 98,
    375-376). *)
Definition new_Light (nm : string) : Device :=
  Light (mkBase nm false []).

Definition new_Door (nm : string) : Device :=
  Door (mkBase nm false []) true.

Definition new_TemperatureSensor (nm : string) : Device :=
  TemperatureSensor (mkBase nm false []) 20.

Definition new_DeviceAdapter (old : OldDevice) : Device :=
  DeviceAdapter (mkBase (old_name old) false []) old.

(** [new C(...)], with the reference the object gets. *)
Definition alloc (a : ref) (d : Device) : M unit :=
  modify (fun w => set_heap (<[a := d]> (heap w)) w).

Definition livingRoomLight : ref := 0.
Definition frontDoor : ref := 1.
Definition tempSensor : ref := 2.
Definition adaptedThermostat : ref := 3.
Definition heatingSystem : ref := 0.
Definition john : User := mkUser "John".
Definition mary : User := mkUser "Mary".

Definition initApp : M unit :=
  alloc livingRoomLight (new_Light "Living Room Light") ;;
  alloc frontDoor (new_Door "Front Door") ;;
  alloc tempSensor (new_TemperatureSensor "Temperature Sensor") ;;
  alloc adaptedThermostat (new_DeviceAdapter (mkOldDevice "Old Thermostat")) ;;
  House_addDevice livingRoomLight ;;
  House_addDevice frontDoor ;;
  House_addDevice tempSensor ;;
  House_addDevice adaptedThermostat ;;
  House_addUser john ;;
  House_addUser mary ;;
  Device_addObserver tempSensor heatingSystem ;;
  House_systemLog "Smart Home System initialized" ;;
  let! ds := gets devices in
  let! us := gets users in
  House_systemLog ("Devices: " +:+ pretty (length ds)) ;;
  House_systemLog ("Users: " +:+ pretty (length us)).

(** The world once [initApp] has run. *)
Definition app_world : World := snd (initApp empty_world).

End App.

(** ** Vocabulary of the properties *)

Module Vocabulary.

(** A method commutes with a change [g] of the world when it neither reads
    nor writes what [g] touches: running it after [g] is running it
    before. *)
Definition commutes {X} (g : World -> World) (m : World -> X * World) : Prop :=
  forall w, m (g w) = (let '(o, w') := m w in (o, g w')).

(** [w'] is [w] with the calls [news] added to [updates]; apart from that,
    only the heating systems and the system log may differ. *)
Definition notified (news : list (ref * Device)) (w w' : World) : Prop :=
  heap w' = heap w /\ remotes w' = remotes w /\ devices w' = devices w /\
  users w' = users w /\ chat_users w' = chat_users w /\
  chat_log w' = chat_log w /\ updates w' = updates w ++ news.

(** [device instanceof TemperatureSensor], on a value that may be
    [undefined]. *)
Definition instanceof_TemperatureSensor (d : option Device) : bool :=
  match d with
  | Some (TemperatureSensor _ _) => true
  | _ => false
  end.

(** The five mutating methods a device may have. *)
Inductive Transition : Type :=
  | TurnOn
  | TurnOff
  | Lock
  | Unlock
  | SetTemperature (temp : SafeInteger).

(** [x.turnOn()], [x.turnOff()], [x.lock()], [x.unlock()],
    [x.setTemperature(temp)] *)
Definition call (t : Transition) (x : ref) : M string :=
  match t with
  | TurnOn => turnOn x
  | TurnOff => turnOff x
  | Lock => lock x
  | Unlock => unlock x
  | SetTemperature temp => setTemperature x temp
  end.

(** Which classes define which method: [Light] and [DeviceAdapter] have
    [turnOn] and [turnOff], [Door] has [lock] and [unlock], the sensor has
    [setTemperature]. *)
Definition has_method (t : Transition) (d : Device) : bool :=
  match t, d with
  | (TurnOn | TurnOff), (Light _ | DeviceAdapter _ _) => true
  | (Lock | Unlock), Door _ _ => true
  | SetTemperature _, TemperatureSensor _ _ => true
  | _, _ => false
  end.

(** The field assignment of each method. *)
Definition mutation (t : Transition) : Device -> Device :=
  match t with
  | TurnOn => set_isOn true
  | TurnOff => set_isOn false
  | Lock => set_isLocked true
  | Unlock => set_isLocked false
  | SetTemperature temp => set_temperature (number temp)
  end.

(** What a reader of the device finds once the method has assigned. *)
Definition assigned (t : Transition) (d : Device) : Prop :=
  match t with
  | TurnOn => isOn (base d) = true
  | TurnOff => isOn (base d) = false
  | Lock => isLocked d = Some true
  | Unlock => isLocked d = Some false
  | SetTemperature temp => temperature d = Some (number temp)
  end.

(** The string each method returns. *)
Definition confirmation (t : Transition) (d : Device) : string :=
  match t, d with
  | TurnOn, DeviceAdapter _ o => oldTurnOn o
  | TurnOff, DeviceAdapter _ o => oldTurnOff o
  | TurnOn, _ => "Light " +:+ name (base d) +:+ " turned on"
  | TurnOff, _ => "Light " +:+ name (base d) +:+ " turned off"
  | Lock, _ => "Door " +:+ name (base d) +:+ " locked"
  | Unlock, _ => "Door " +:+ name (base d) +:+ " unlocked"
  | SetTemperature temp, _ =>
      "Temperature sensor " +:+ name (base d) +:+ " updated to "
      +:+ pretty (number temp) +:+ "C"
  end.

(** The inverse the commands pair with each transition: [turnOn] with
    [turnOff], [lock] with [unlock]; [setTemperature] has none. *)
Definition inverse (t : Transition) : option Transition :=
  match t with
  | TurnOn => Some TurnOff
  | TurnOff => Some TurnOn
  | Lock => Some Unlock
  | Unlock => Some Lock
  | SetTemperature _ => None
  end.

(** A light that is on, alone in the store. *)
Definition lit_world : World :=
  set_heap {[ 0 := Light (mkBase "Lamp" true []) ]} empty_world.

(** The world of the application with the front door unlocked and the
    living-room light on. *)
Definition at_home_world : World :=
  snd ((unlock App.frontDoor ;; turnOn App.livingRoomLight) App.app_world).

(** The users a broadcast of [from] is delivered to: the registered users
    whose name is not the sender's, in registration order. *)
Definition recipients (from : User) (registered : list User) : list User :=
  List.filter
    (fun user => negb (bool_decide (user_name user = user_name from)))
    registered.

(** The application's house after one more device named 'Front Door' and
    one more user named 'John' were added. *)
Definition crowded_world : World :=
  snd ((App.alloc 4 (App.new_Light "Front Door") ;;
        House_addDevice 4 ;;
        House_addUser (mkUser "John")) App.app_world).

(** [pressButton] on each command of [cs], first to last. *)
Fixpoint press_all (this : ref) (cs : list Command) : M (list string) :=
  match cs with
  | [] => ret []
  | c :: cs' =>
      let! r := RemoteControl_pressButton this c in
      let! rs := press_all this cs' in
      ret (r :: rs)
  end.

(** [execute()] on each command of [cs], first to last, without a remote
    control. *)
Fixpoint execute_all (cs : list Command) : M (list string) :=
  match cs with
  | [] => ret []
  | c :: cs' =>
      let! r := Command_execute c in
      let! rs := execute_all cs' in
      ret (r :: rs)
  end.

(** [n] calls of the remote's [undo()], by a caller that looks at each
    outcome, a result or an exception, and goes on. *)
Fixpoint undo_times (this : ref) (n : nat) (w : World)
  : list (Outcome string) * World :=
  match n with
  | O => ([], w)
  | S n' =>
      let '(o, w1) := RemoteControl_undo this w in
      let '(os, w2) := undo_times this n' w1 in
      (o :: os, w2)
  end.

(** [undo()] on each command of [cs], first to last, without a remote
    control. *)
Fixpoint undo_in_order (cs : list Command) (w : World)
  : list (Outcome string) * World :=
  match cs with
  | [] => ([], w)
  | c :: cs' =>
      let '(o, w1) := Command_undo c w in
      let '(os, w2) := undo_in_order cs' w1 in
      (o :: os, w2)
  end.

(** The world with the history of one remote control replaced. *)
Definition with_history (this : ref) (h : list Command) (w : World) : World :=
  set_remotes (<[this := h]> (remotes w)) w.

(** The world in which the proxy has just refused to turn the light off,
    the refused command being in the history of remote control 7. *)
Definition refused_world : World :=
  snd (RemoteControl_pressButton 7
         (SecurityProxy (LightOffCommand App.livingRoomLight))
         at_home_world).

End Vocabulary.

Export Vocabulary.

(** ** Vocabulary of the further properties *)

Module Further.

(** A value that has no method [t]: [undefined], or an object of a class
    that does not define it. *)
Definition lacks_method (t : Transition) (x : option Device) : bool :=
  match x with
  | Some d => negb (has_method t d)
  | None => true
  end.

(** The four transitions that assign a boolean; the commands use no
    other. *)
Definition is_switch (t : Transition) : bool :=
  match t with
  | SetTemperature _ => false
  | _ => true
  end.

(** The activation line of [HeatingSystem.update]. *)
Definition activation_line : string :=
  "Heating system activated: Comfort mode: Heating to 22C".

(** What [HeatingSystem.update] selects for a temperature. *)
Definition selected (temp : Z) : HeatingStrategy :=
  if (temp <? 18)%Z then ComfortMode else EcoMode.

(** The device a command was built with, through its wrappers. *)
Fixpoint target (c : Command) : ref :=
  match c with
  | LightOnCommand light | LightOffCommand light => light
  | DoorLockCommand door | DoorUnlockCommand door => door
  | SecurityProxy command | LogCommand command => target command
  end.

(** A method keeps a relation [R] when every run, returning or throwing,
    ends in a world related to the one it started in. *)
Definition keeps {X} (R : World -> World -> Prop) (m : World -> X * World)
  : Prop :=
  forall w o w', m w = (o, w') -> R w w'.

(** [w'] differs from [w] at most in the fields of the device [a], other
    than its name and observers, in the heating systems, in the system
    log and in the record of [update] calls. *)
Definition touches_only (a : ref) (w w' : World) : Prop :=
  (forall b, b <> a -> heap w' !! b = heap w !! b) /\
  (forall b, name ∘ base <$> heap w' !! b = name ∘ base <$> heap w !! b) /\
  (forall b, observers ∘ base <$> heap w' !! b =
             observers ∘ base <$> heap w !! b) /\
  remotes w' = remotes w /\ devices w' = devices w /\
  users w' = users w /\ chat_users w' = chat_users w /\
  chat_log w' = chat_log w.

(** The world with [p] put in front of its system log. *)
Definition relog (p : list string) (w : World) : World :=
  set_system_log (p ++ system_log w) w.

(** Every reference in the house's [devices] array is to a device. *)
Definition registry_ok (w : World) : Prop :=
  Forall (fun a => is_Some (heap w !! a)) (devices w).

(** The names of the devices behind a list of references. *)
Definition names_of (h : gmap nat Device) (l : list ref)
  : list (option string) :=
  map (fun a => name ∘ base <$> h !! a) l.

(** What a direct message leaves in the chat log: [receiveMessage]
    displays it with the recipient's name, [sendMessage] with the name it
    was sent to, which is the same name. *)
Definition the_two_lines (from message to : string) : list string :=
  [chat_line from message to; chat_line from message to].

(** Two worlds with the same devices, heating systems, house, chat and
    record of calls: they may differ in the system log and in the
    histories of the remote controls. *)
Definition same_house (w w' : World) : Prop :=
  heap w' = heap w /\ heaters w' = heaters w /\ devices w' = devices w /\
  users w' = users w /\ chat_users w' = chat_users w /\
  chat_log w' = chat_log w /\ updates w' = updates w.

(** The application's house after the heating system was subscribed to
    the sensor a second time. *)
Definition twice_subscribed_world : World :=
  snd (Device_addObserver App.tempSensor App.heatingSystem App.app_world).

(** A house whose only device is a temperature sensor. *)
Definition sensor_only_world : World :=
  snd ((App.alloc 2 (App.new_TemperatureSensor "Temperature Sensor") ;;
        House_addDevice 2) empty_world).

(** The two classes that wrap a command and are not subclasses of
    [Command]. *)
Definition is_wrapper (c : Command) : bool :=
  match c with
  | SecurityProxy _ | LogCommand _ => true
  | _ => false
  end.

End Further.

Export Further.

(** ** The simulated day (lines 449-485) *)

Module Day.

(** [new SmartHomeFacade()] (lines 226-229): the house is the single
    house, and [remote] is the reference of the new [RemoteControl], which
    its constructor gives an empty history. *)
Definition new_SmartHomeFacade (remote : ref) : M unit :=
  set_history remote [].

(** The five functions that [simulateDay] hands to [setTimeout], named by
    their delays.  The calls of [updateDevices], which render the page,
    are left out. *)
Definition at_1000 (remote : ref) : M unit :=
  new_SmartHomeFacade remote ;;
  SmartHomeFacade_arriveHome remote ;;
  ret tt.

Definition at_2000 : M unit :=
  let! john := House_findUser "John" in
  match john with
  | Some john => User_sendMessage john "all" "Good morning everyone!"
  | None => ret tt
  end.

Definition at_3000 : M unit :=
  let! tempSensor := House_findDevice "Temperature Sensor" in
  match tempSensor with
  | Some tempSensor => setTemperature tempSensor (reading 16) ;; ret tt
  | None => ret tt
  end.

Definition at_4000 : M unit :=
  let! mary := House_findUser "Mary" in
  match mary with
  | Some mary => User_sendMessage mary "John" "The house is getting cold!"
  | None => ret tt
  end.

Definition at_5000 (remote : ref) : M unit :=
  new_SmartHomeFacade remote ;;
  SmartHomeFacade_leaveHome remote ;;
  ret tt.

(** Timer callbacks run one after the other, in the order of their
    delays; each runs to its end or to an exception, and the world it
    leaves is the one the next callback finds. *)
Definition run_callbacks (callbacks : list (M unit)) (w : World) : World :=
  foldl (fun w callback => snd (callback w)) w callbacks.

(** [simulateDay()]: the log line, then the five callbacks.  [remote1] and
    [remote2] are the references of the remote controls of the two
    facades. *)
Definition simulateDay (remote1 remote2 : ref) (w : World) : World :=
  run_callbacks
    [at_1000 remote1; at_2000; at_3000; at_4000; at_5000 remote2]
    (snd (House_systemLog "Starting day simulation..." w)).

End Day.

Export Day.

(** * Properties *)

(** ** Running the monad *)

Section Running.

Context {A B : Type}.

Lemma bind_Ret (m : M A) (k : A -> M B) w a w' :
  m w = (Ret a, w') -> bind m k w = k a w'.
Proof. intros E. unfold bind. now rewrite E. Qed.

Lemma bind_Throw (m : M A) (k : A -> M B) w e w' :
  m w = (Throw e, w') -> bind m k w = (Throw e, w').
Proof. intros E. unfold bind. now rewrite E. Qed.

End Running.

Section Commuting.

Variable g : World -> World.

Lemma commutes_ret {A} (a : A) : commutes g (ret a).
Proof. intros w. reflexivity. Qed.

Lemma commutes_throw {A} e : commutes g (@throw A e).
Proof. intros w. reflexivity. Qed.

Lemma commutes_bind {A B} (m : M A) (k : A -> M B) :
  commutes g m -> (forall a, commutes g (k a)) -> commutes g (bind m k).
Proof.
  intros Hm Hk w. unfold bind. rewrite Hm.
  destruct (m w) as [[a|e] w']; [apply Hk | reflexivity].
Qed.

Lemma commutes_gets {A} (f : World -> A) :
  (forall w, f (g w) = f w) -> commutes g (gets f).
Proof. intros Hf w. unfold gets. now rewrite Hf. Qed.

Lemma commutes_modify (f : World -> World) :
  (forall w, f (g w) = g (f w)) -> commutes g (modify f).
Proof. intros Hf w. unfold modify. now rewrite Hf. Qed.

Lemma commutes_forEach {A} (f : A -> M unit) (l : list A) :
  (forall x, commutes g (f x)) -> commutes g (forEach f l).
Proof.
  intros Hf. induction l as [|x l IH]; simpl.
  - apply commutes_ret.
  - apply commutes_bind; [apply Hf | intros _; apply IH].
Qed.

Lemma commutes_run {X} (m : World -> X * World) w o w' :
  commutes g m -> m w = (o, w') -> m (g w) = (o, g w').
Proof. intros Hm E. rewrite Hm. now rewrite E. Qed.

End Commuting.

(** ** Observers are called once each, after the change *)

Module Notification.

Lemma notified_nil w : notified [] w w.
Proof. unfold notified. rewrite app_nil_r. tauto. Qed.

Lemma notified_app l1 l2 w1 w2 w3 :
  notified l1 w1 w2 -> notified l2 w2 w3 -> notified (l1 ++ l2) w1 w3.
Proof.
  unfold notified. intros (?&?&?&?&?&?&?) (?&?&?&?&?&?&?).
  rewrite app_assoc. repeat split; congruence.
Qed.

(** [HeatingSystem.update] on the three kinds of input. *)
Lemma update_cold h a b t w :
  heap w !! a = Some (TemperatureSensor b t) -> (t < 18)%Z ->
  HeatingSystem_update h a w =
    (Ret tt,
     set_system_log
       (system_log w ++
          ["Heating system activated: Comfort mode: Heating to 22C"])
       (set_heaters (<[h := ComfortMode]> (heaters w)) w)).
Proof.
  intros Ha Ht. unfold HeatingSystem_update, bind, gets. rewrite Ha.
  apply Z.ltb_lt in Ht. rewrite Ht.
  unfold HeatingSystem_setStrategy, HeatingSystem_heat, House_systemLog,
    bind, gets, modify, ret, strategy. simpl.
  now rewrite lookup_insert_eq.
Qed.

Lemma update_warm h a b t w :
  heap w !! a = Some (TemperatureSensor b t) -> (18 <= t)%Z ->
  HeatingSystem_update h a w =
    (Ret tt, set_heaters (<[h := EcoMode]> (heaters w)) w).
Proof.
  intros Ha Ht. unfold HeatingSystem_update, bind, gets. rewrite Ha.
  apply Z.ltb_ge in Ht. now rewrite Ht.
Qed.

Lemma update_other h a w :
  instanceof_TemperatureSensor (heap w !! a) = false ->
  HeatingSystem_update h a w = (Ret tt, w).
Proof.
  intros Ha. unfold HeatingSystem_update, bind, gets.
  destruct (heap w !! a) as [[]|]; try reflexivity. discriminate.
Qed.

Lemma update_notified h a w :
  exists w', HeatingSystem_update h a w = (Ret tt, w') /\ notified [] w w'.
Proof.
  destruct (heap w !! a) as [d|] eqn:Ha.
  - destruct d as [b|b l|b t|b o];
      try (exists w; split; [apply update_other; now rewrite Ha
                            | apply notified_nil]).
    destruct (Z.lt_ge_cases t 18) as [Ht|Ht].
    + eexists. split; [eapply update_cold; eassumption|].
      unfold notified; simpl. rewrite app_nil_r. tauto.
    + eexists. split; [eapply update_warm; eassumption|].
      unfold notified; simpl. rewrite app_nil_r. tauto.
  - exists w. split; [apply update_other; now rewrite Ha | apply notified_nil].
Qed.

Lemma call_update_notified a d o w :
  heap w !! a = Some d ->
  exists w', call_update a o w = (Ret tt, w') /\ notified [(o, d)] w w'.
Proof.
  intros Ha. unfold call_update.
  destruct (update_notified o a
              (set_updates (updates w ++ [(o, d)]) w)) as (w' & E & N).
  exists w'. split.
  - unfold bind at 1, deref. rewrite Ha.
    unfold bind, modify. exact E.
  - apply (notified_app [(o, d)] [] w _ w') in N.
    + exact N.
    + unfold notified; simpl. tauto.
Qed.

Lemma forEach_call_update a d os w :
  heap w !! a = Some d ->
  exists w',
    forEach (call_update a) os w = (Ret tt, w') /\
    notified (map (fun o => (o, d)) os) w w'.
Proof.
  revert w. induction os as [|o os IH]; intros w Ha; simpl.
  - exists w. split; [reflexivity | apply notified_nil].
  - destruct (call_update_notified a d o w Ha) as (w1 & E1 & N1).
    assert (Ha1 : heap w1 !! a = Some d)
      by (destruct N1 as (-> & _); exact Ha).
    destruct (IH w1 Ha1) as (w2 & E2 & N2).
    exists w2. split.
    + erewrite bind_Ret by exact E1. exact E2.
    + exact (notified_app [(o, d)] _ _ _ _ N1 N2).
Qed.

Lemma notifyObservers_notified a d w :
  heap w !! a = Some d ->
  exists w',
    Device_notifyObservers a w = (Ret tt, w') /\
    notified (map (fun o => (o, d)) (observers (base d))) w w'.
Proof.
  intros Ha. unfold Device_notifyObservers.
  destruct (forEach_call_update a d (observers (base d)) w Ha)
    as (w' & E & N).
  exists w'. split; [|exact N].
  unfold bind, deref. rewrite Ha. exact E.
Qed.

(** The common shape of the seven transition methods: assign a field,
    notify, then build the result in the world [w'] so reached. *)
Lemma assign_notify_then {B} a d f (k : M B) w :
  heap w !! a = Some d ->
  observers (base (f d)) = observers (base d) ->
  exists w',
    (assign a f ;; Device_notifyObservers a ;; k) w = k w' /\
    heap w' = <[a := f d]> (heap w) /\
    remotes w' = remotes w /\ devices w' = devices w /\
    users w' = users w /\ chat_users w' = chat_users w /\
    chat_log w' = chat_log w /\
    updates w' = updates w ++ map (fun o => (o, f d)) (observers (base d)).
Proof.
  intros Ha Hobs.
  set (w1 := set_heap (<[a := f d]> (heap w)) w).
  assert (Ha1 : heap w1 !! a = Some (f d)) by apply lookup_insert_eq.
  destruct (notifyObservers_notified a (f d) w1 Ha1) as (w' & E & N).
  exists w'. split.
  - assert (E0 : assign a f w = (Ret tt, w1))
      by (unfold assign, bind, deref, modify; now rewrite Ha).
    rewrite (bind_Ret _ _ _ _ _ E0). now rewrite (bind_Ret _ _ _ _ _ E).
  - rewrite Hobs in N. destruct N as (?&?&?&?&?&?&?). repeat split; assumption.
Qed.

End Notification.

Import Notification.

(** ** The device transitions *)

Module Transitions.

Lemma mutation_observers t d :
  observers (base (mutation t d)) = observers (base d).
Proof. destruct t, d; reflexivity. Qed.

Lemma mutation_name t d : name (base (mutation t d)) = name (base d).
Proof. destruct t, d; reflexivity. Qed.

Lemma mutation_assigned t d : has_method t d = true -> assigned t (mutation t d).
Proof. destruct t, d; simpl; intros H; try discriminate; reflexivity. Qed.

Lemma mutation_has_method t t' d :
  has_method t' (mutation t d) = has_method t' d.
Proof. destruct t, t', d; reflexivity. Qed.

(** A call of a method the device has: the field is assigned in the
    store, each observer of the device is called once, in subscription
    order, with the device as assigned, and the confirmation comes back. *)
Lemma call_run t a d w :
  heap w !! a = Some d -> has_method t d = true ->
  exists w',
    call t a w = (Ret (confirmation t d), w') /\
    heap w' = <[a := mutation t d]> (heap w) /\
    remotes w' = remotes w /\ devices w' = devices w /\
    users w' = users w /\ chat_users w' = chat_users w /\
    chat_log w' = chat_log w /\
    updates w' =
      updates w ++ map (fun o => (o, mutation t d)) (observers (base d)).
Proof.
  intros Ha Hm.
  pose proof (mutation_observers t d) as Hobs.
  destruct t, d; try discriminate Hm;
    unfold call, turnOn, turnOff, lock, unlock, setTemperature;
    unfold bind at 1, deref at 1; rewrite Ha;
    cbv beta iota;
    unfold Light_turnOn, Light_turnOff, Door_lock, Door_unlock,
      TemperatureSensor_setTemperature, DeviceAdapter_turnOn,
      DeviceAdapter_turnOff;
    match goal with
    | |- context [bind (assign a ?f) (fun _ => bind _ (fun _ => ?k))] =>
        destruct (assign_notify_then a _ f k w Ha Hobs) as (w' & E & Hh & R)
    end;
    exists w'; (split; [|split; [exact Hh | exact R]]);
    (etransitivity; [exact E|]);
    unfold bind, deref, ret; rewrite Hh, lookup_insert_eq; reflexivity.
Qed.

End Transitions.

Import Transitions.

(** ** Claims about devices and the heating system *)

(** C4, as claimed, fails for an observer that was subscribed twice:
    [addObserver] pushes without looking, and one [setTemperature] then
    calls [update] on that observer twice (two activation lines are
    logged). *)
Lemma observer_subscribed_twice_is_notified_twice :
  (observers ∘ base <$> heap twice_subscribed_world !! App.tempSensor) =
    Some [App.heatingSystem; App.heatingSystem] /\
  exists m w',
    call (SetTemperature (reading 16)) App.tempSensor twice_subscribed_world =
      (Ret m, w') /\
    map fst (updates w') = [App.heatingSystem; App.heatingSystem] /\
    system_log w' =
      system_log twice_subscribed_world ++ [activation_line; activation_line].
Proof.
  split; [vm_compute; reflexivity|].
  exists "Temperature sensor Temperature Sensor updated to 16C",
    (snd (call (SetTemperature (reading 16)) App.tempSensor
            twice_subscribed_world)).
  split; [|split]; vm_compute; reflexivity.
Qed.

(** C4, amended.  Every mutating transition ([turnOn], [turnOff], [lock],
    [unlock], [setTemperature], on the classes that define them, the
    adapter included) returns its confirmation string after having called
    [update] once per entry of the device's [observers] array, in
    subscription order, each call being handed the device with the field
    already assigned, which is the device the store holds when the
    transition returns.  An observer is therefore called as many times as
    it was subscribed: exactly once when no observer is in the array
    twice. *)
Theorem transition_notifies_each_subscription_once t a d w :
  heap w !! a = Some d -> has_method t d = true ->
  exists w' d' news,
    call t a w = (Ret (confirmation t d), w') /\
    heap w' !! a = Some d' /\
    assigned t d' /\
    observers (base d') = observers (base d) /\
    updates w' = updates w ++ news /\
    news = map (fun o => (o, d')) (observers (base d)) /\
    (forall o,
       count_occ Nat.eq_dec (map fst news) o =
       count_occ Nat.eq_dec (observers (base d)) o) /\
    (NoDup (observers (base d)) ->
     forall o, o ∈ observers (base d) ->
               count_occ Nat.eq_dec (map fst news) o = 1).
Proof.
  intros Ha Hm.
  destruct (call_run t a d w Ha Hm) as (w' & E & Hh & _ & _ & _ & _ & _ & Hu).
  assert (Hfst : map fst (map (fun o => (o, mutation t d))
                            (observers (base d))) = observers (base d)).
  { rewrite map_map. simpl. apply map_id. }
  exists w', (mutation t d), (map (fun o => (o, mutation t d))
                                 (observers (base d))).
  split; [exact E|].
  split; [rewrite Hh; apply lookup_insert_eq|].
  split; [now apply mutation_assigned|].
  split; [apply mutation_observers|].
  split; [exact Hu|]. split; [reflexivity|].
  rewrite Hfst. split; [reflexivity|].
  intros Hnd o Hin.
  apply NoDup_ListNoDup in Hnd.
  apply (proj1 (NoDup_count_occ' Nat.eq_dec _) Hnd).
  now apply list_elem_of_In.
Qed.

Lemma transition_notifies_each_subscription_once_witness :
  exists w' d' news,
    call (SetTemperature (reading 16)) App.tempSensor App.app_world =
      (Ret "Temperature sensor Temperature Sensor updated to 16C", w') /\
    heap w' !! App.tempSensor = Some d' /\
    temperature d' = Some 16%Z /\
    observers (base d') = [App.heatingSystem] /\
    updates w' = updates App.app_world ++ news /\
    news = [(App.heatingSystem, d')] /\
    (forall o,
       count_occ Nat.eq_dec (map fst news) o =
       count_occ Nat.eq_dec [App.heatingSystem] o) /\
    (NoDup [App.heatingSystem] ->
     forall o, o ∈ [App.heatingSystem] ->
               count_occ Nat.eq_dec (map fst news) o = 1).
Proof.
  apply (transition_notifies_each_subscription_once
           (SetTemperature (reading 16)) App.tempSensor
           (TemperatureSensor
              (mkBase "Temperature Sensor" false [App.heatingSystem]) 20)
           App.app_world).
  - vm_compute. reflexivity.
  - reflexivity.
Defined.

(** C5, as claimed, fails: on a light that is already on, [turnOn()] then
    [turnOff()] leaves [isOn] false, not the [true] it had before. *)
Lemma forward_inverse_not_identity :
  (isOn ∘ base <$> heap lit_world !! 0) = Some true /\
  exists m w',
    (turnOn 0 ;; turnOff 0) lit_world = (Ret m, w') /\
    (isOn ∘ base <$> heap w' !! 0) = Some false.
Proof.
  split; [reflexivity|].
  eexists _, _. split; vm_compute; reflexivity.
Qed.

(** C5, amended.  A forward transition followed by its paired inverse
    leaves the field at the value the inverse assigns ([turnOn] then
    [turnOff] leaves [isOn] false, [lock] then [unlock] leaves [isLocked]
    false, and so on); the device is back to exactly what it was before
    the forward call when that call changed the field, that is when the
    field did not already have the value the forward transition
    assigns. *)
Theorem forward_then_inverse t t' a d w :
  heap w !! a = Some d -> has_method t d = true -> inverse t = Some t' ->
  exists m1 w1 m2 w2 d2,
    call t a w = (Ret m1, w1) /\
    call t' a w1 = (Ret m2, w2) /\
    heap w2 !! a = Some d2 /\
    assigned t' d2 /\
    (~ assigned t d -> d2 = d).
Proof.
  intros Ha Hm Hinv.
  destruct (call_run t a d w Ha Hm) as (w1 & E1 & Hh1 & _).
  assert (Ha1 : heap w1 !! a = Some (mutation t d))
    by (rewrite Hh1; apply lookup_insert_eq).
  assert (Hm' : has_method t' (mutation t d) = true)
    by (rewrite mutation_has_method;
        destruct t, d; inversion Hinv; subst; (discriminate || reflexivity)).
  destruct (call_run t' a _ w1 Ha1 Hm') as (w2 & E2 & Hh2 & _).
  exists (confirmation t d), w1, (confirmation t' (mutation t d)), w2,
    (mutation t' (mutation t d)).
  repeat split.
  - exact E1.
  - exact E2.
  - rewrite Hh2. apply lookup_insert_eq.
  - now apply mutation_assigned.
  - intros Hn.
    destruct t; inversion Hinv; subst; clear Hinv;
      destruct d as [[n on os]|[n on os] l|[n on os] v|[n on os] o];
      try discriminate Hm; simpl in *.
    all: try (destruct on; [congruence | reflexivity]).
    all: try (destruct on; [reflexivity | congruence]).
    all: try (destruct l; [congruence | reflexivity]).
    all: try (destruct l; [reflexivity | congruence]).
Qed.

Lemma forward_then_inverse_witness :
  exists m1 w1 m2 w2 d2,
    call Unlock App.frontDoor App.app_world = (Ret m1, w1) /\
    call Lock App.frontDoor w1 = (Ret m2, w2) /\
    heap w2 !! App.frontDoor = Some d2 /\
    isLocked d2 = Some true /\
    (~ isLocked (App.new_Door "Front Door") = Some false ->
     d2 = App.new_Door "Front Door").
Proof.
  apply (forward_then_inverse Unlock Lock App.frontDoor
           (App.new_Door "Front Door") App.app_world).
  - vm_compute. reflexivity.
  - reflexivity.
  - reflexivity.
Defined.

(** C6.  [HeatingSystem.update] called with a temperature sensor: below 18
    the heating system's strategy becomes [ComfortMode] and exactly one
    line, the activation message with the comfort description, is added to
    the system log; at 18 or above the strategy becomes [EcoMode] and the
    log is as it was.  The strategy stays in the heating system: a
    following [heat()] answers with the description of the selected
    strategy and changes nothing. *)
Theorem update_selects_strategy h a b t w :
  heap w !! a = Some (TemperatureSensor b t) ->
  exists w',
    HeatingSystem_update h a w = (Ret tt, w') /\
    ((t < 18)%Z ->
       strategy h w' = ComfortMode /\
       system_log w' =
         system_log w ++
           ["Heating system activated: Comfort mode: Heating to 22C"] /\
       HeatingSystem_heat h w' = (Ret "Comfort mode: Heating to 22C", w')) /\
    ((18 <= t)%Z ->
       strategy h w' = EcoMode /\
       system_log w' = system_log w /\
       HeatingSystem_heat h w' = (Ret "Eco mode: Heating to 18C", w')).
Proof.
  intros Ha. destruct (Z.lt_ge_cases t 18) as [Ht|Ht].
  - eexists. split; [apply (update_cold h a b t w Ha Ht)|].
    split; [|lia]. intros _.
    unfold HeatingSystem_heat, bind, gets, ret, strategy; simpl.
    rewrite lookup_insert_eq. auto.
  - eexists. split; [apply (update_warm h a b t w Ha Ht)|].
    split; [lia|]. intros _.
    unfold HeatingSystem_heat, bind, gets, ret, strategy; simpl.
    rewrite lookup_insert_eq. auto.
Qed.

Lemma update_selects_strategy_witness :
  exists w',
    HeatingSystem_update App.heatingSystem App.tempSensor
      (snd (setTemperature App.tempSensor (reading 16) App.app_world)) =
      (Ret tt, w') /\
    ((16 < 18)%Z ->
       strategy App.heatingSystem w' = ComfortMode /\
       system_log w' =
         system_log
           (snd (setTemperature App.tempSensor (reading 16) App.app_world)) ++
           ["Heating system activated: Comfort mode: Heating to 22C"] /\
       HeatingSystem_heat App.heatingSystem w' =
         (Ret "Comfort mode: Heating to 22C", w')) /\
    ((18 <= 16)%Z ->
       strategy App.heatingSystem w' = EcoMode /\
       system_log w' =
         system_log
           (snd (setTemperature App.tempSensor (reading 16) App.app_world)) /\
       HeatingSystem_heat App.heatingSystem w' =
         (Ret "Eco mode: Heating to 18C", w')).
Proof.
  apply (update_selects_strategy App.heatingSystem App.tempSensor
           (mkBase "Temperature Sensor" false [App.heatingSystem]) 16).
  vm_compute. reflexivity.
Defined.

(** C10.  [HeatingSystem.update] called with anything that is not a
    temperature sensor does nothing: the strategy is the one it was, the
    log has no new line, the world is the same. *)
Theorem update_ignores_other_devices h a w :
  instanceof_TemperatureSensor (heap w !! a) = false ->
  exists w',
    HeatingSystem_update h a w = (Ret tt, w') /\
    strategy h w' = strategy h w /\
    system_log w' = system_log w /\
    w' = w.
Proof.
  intros Ha. exists w. split; [|auto].
  unfold HeatingSystem_update, bind, gets.
  destruct (heap w !! a) as [[]|]; try reflexivity. discriminate.
Qed.

Lemma update_ignores_other_devices_witness :
  exists w',
    HeatingSystem_update App.heatingSystem App.frontDoor App.app_world =
      (Ret tt, w') /\
    strategy App.heatingSystem w' = strategy App.heatingSystem App.app_world /\
    system_log w' = system_log App.app_world /\
    w' = App.app_world.
Proof.
  apply (update_ignores_other_devices App.heatingSystem App.frontDoor
           App.app_world).
  vm_compute. reflexivity.
Defined.

(** ** The security proxy *)

(** The outcome of the proxy's test on a turn-off-light command, read off
    the registry. *)
Lemma SecurityProxy_refuses_run light w :
  SecurityProxy_refuses (LightOffCommand light) w =
    (match find_device (heap w) "Front Door" (devices w) with
     | Ret (Some a) =>
         match heap w !! a with
         | Some d => Ret (negb (truthy (isLocked d)))
         | None => Throw TypeError
         end
     | Ret None => Ret false
     | Throw e => Throw e
     end, w).
Proof.
  unfold SecurityProxy_refuses, instanceof_LightOffCommand, bind,
    House_findDevice, deref, ret.
  destruct (find_device (heap w) "Front Door" (devices w)) as [[a|]|e];
    try reflexivity.
  destruct (heap w !! a); reflexivity.
Qed.

(** C1.  [SecurityProxy.execute] around a [LightOffCommand]:
    - when [findDevice('Front Door')] gives a device whose [isLocked] is
      [false], the result is the fixed warning and the world, so the
      light's [isOn], is untouched: the inner command is not run;
    - when there is no 'Front Door' or its [isLocked] is [true], the call
      is the inner command's [execute()]: on a light it returns the
      light's confirmation and leaves the light's [isOn] false. *)
Theorem security_proxy_guards_light_off light w :
  (forall a d,
     find_device (heap w) "Front Door" (devices w) = Ret (Some a) ->
     heap w !! a = Some d -> isLocked d = Some false ->
     Command_execute (SecurityProxy (LightOffCommand light)) w =
       (Ret security_warning, w)) /\
  (find_device (heap w) "Front Door" (devices w) = Ret None \/
   (exists a d,
      find_device (heap w) "Front Door" (devices w) = Ret (Some a) /\
      heap w !! a = Some d /\ isLocked d = Some true) ->
   Command_execute (SecurityProxy (LightOffCommand light)) w =
     Command_execute (LightOffCommand light) w /\
   forall l,
     heap w !! light = Some l -> has_method TurnOff l = true ->
     exists w' l',
       Command_execute (SecurityProxy (LightOffCommand light)) w =
         (Ret (confirmation TurnOff l), w') /\
       heap w' !! light = Some l' /\
       isOn (base l') = false).
Proof.
  split.
  - intros a d Hf Ha Hl.
    change (Command_execute (SecurityProxy (LightOffCommand light)))
      with (let! refused := SecurityProxy_refuses (LightOffCommand light) in
            if (refused : bool) then ret security_warning
            else Command_execute (LightOffCommand light)).
    unfold bind. rewrite SecurityProxy_refuses_run, Hf, Ha, Hl.
    reflexivity.
  - intros Hdoor.
    assert (E : Command_execute (SecurityProxy (LightOffCommand light)) w =
                Command_execute (LightOffCommand light) w).
    { change (Command_execute (SecurityProxy (LightOffCommand light)))
        with (let! refused := SecurityProxy_refuses (LightOffCommand light) in
              if (refused : bool) then ret security_warning
              else Command_execute (LightOffCommand light)).
      unfold bind. rewrite SecurityProxy_refuses_run.
      destruct Hdoor as [-> | (a & d & -> & -> & ->)]; reflexivity. }
    split; [exact E|].
    intros l Hl Hm. rewrite E.
    destruct (call_run TurnOff light l w Hl Hm) as (w' & Er & Hh & _).
    exists w', (mutation TurnOff l). repeat split.
    + exact Er.
    + rewrite Hh. apply lookup_insert_eq.
    + destruct l; reflexivity.
Qed.

Lemma security_proxy_guards_light_off_witness :
  Command_execute (SecurityProxy (LightOffCommand App.livingRoomLight))
    at_home_world = (Ret security_warning, at_home_world) /\
  exists w' l',
    Command_execute (SecurityProxy (LightOffCommand App.livingRoomLight))
      App.app_world = (Ret "Light Living Room Light turned off", w') /\
    heap w' !! App.livingRoomLight = Some l' /\
    isOn (base l') = false.
Proof.
  split.
  - apply (proj1 (security_proxy_guards_light_off App.livingRoomLight
                    at_home_world)
             App.frontDoor (Door (mkBase "Front Door" false []) false));
      vm_compute; reflexivity.
  - apply (proj2 (proj2 (security_proxy_guards_light_off App.livingRoomLight
                           App.app_world)
                    (or_intror
                       (ex_intro _ App.frontDoor
                          (ex_intro _ (App.new_Door "Front Door")
                             (conj eq_refl (conj eq_refl eq_refl))))))
             (App.new_Light "Living Room Light"));
      vm_compute; reflexivity.
Defined.

(** ** The chat room *)

Lemma set_chat_log_same w : set_chat_log (chat_log w) w = w.
Proof. now destruct w. Qed.

(** The loop of the broadcast: one line per recipient. *)
Lemma broadcast_loop from message registered w :
  forEach
    (fun user =>
       if negb (bool_decide (user_name user = user_name from)) then
         User_receiveMessage user (user_name from) message
       else ret tt)
    registered w =
  (Ret tt,
   set_chat_log
     (chat_log w ++
        map (fun user => chat_line (user_name from) message (user_name user))
            (recipients from registered))
     w).
Proof.
  revert w. induction registered as [|u us IH]; intros w; simpl.
  - now rewrite app_nil_r, set_chat_log_same.
  - unfold bind at 1.
    destruct (bool_decide (user_name u = user_name from)); simpl.
    + apply IH.
    + rewrite IH. simpl. now rewrite <- app_assoc.
Qed.

Lemma find_none_of_Forall (to : string) (registered : list User) :
  Forall (fun user => user_name user <> to) registered ->
  List.find (fun user => bool_decide (user_name user = to)) registered = None.
Proof.
  induction 1 as [|u us Hu _ IH]; simpl; [reflexivity|].
  now rewrite bool_decide_eq_false_2.
Qed.

(** C7.  A message sent to ['all'] is delivered, by [receiveMessage], to
    the registered users whose name is not the sender's, each once and in
    registration order, and to nobody else, the sender in particular; after
    the deliveries one line addressed to ['all'] is recorded.  Nothing else
    changes. *)
Theorem broadcast_reaches_all_but_sender from message w :
  HouseChatRoom_sendMessage from "all" message w =
    (Ret tt,
     set_chat_log
       (chat_log w ++
          map (fun user => chat_line (user_name from) message (user_name user))
              (recipients from (chat_users w)) ++
          [chat_line (user_name from) message "all"])
       w) /\
  (forall user,
     In user (recipients from (chat_users w)) <->
     In user (chat_users w) /\ user_name user <> user_name from) /\
  ~ In from (recipients from (chat_users w)).
Proof.
  split; [|split].
  - unfold HouseChatRoom_sendMessage, bind at 1, gets. simpl.
    unfold bind. rewrite broadcast_loop.
    unfold HouseChatRoom_displayMessage, House_chatLog, modify. simpl.
    now rewrite <- app_assoc.
  - intros user. unfold recipients. rewrite filter_In.
    rewrite negb_true_iff, bool_decide_eq_false. reflexivity.
  - unfold recipients. rewrite filter_In.
    rewrite negb_true_iff, bool_decide_eq_false. tauto.
Qed.

(** C8.  A message sent to a name that is not ['all'] and that no
    registered user has: [sendMessage] returns without an exception, no
    line is delivered or recorded, the world is as it was. *)
Theorem unknown_recipient_is_dropped from to message w :
  to <> "all" ->
  Forall (fun user => user_name user <> to) (chat_users w) ->
  HouseChatRoom_sendMessage from to message w = (Ret tt, w).
Proof.
  intros Hall Hnone.
  unfold HouseChatRoom_sendMessage, bind, gets.
  rewrite bool_decide_eq_false_2 by exact Hall.
  now rewrite (find_none_of_Forall to _ Hnone).
Qed.

Lemma unknown_recipient_is_dropped_witness :
  HouseChatRoom_sendMessage App.john "Paul" "hi" App.app_world =
    (Ret tt, App.app_world).
Proof.
  apply (unknown_recipient_is_dropped App.john "Paul" "hi" App.app_world).
  - discriminate.
  - vm_compute. repeat constructor; discriminate.
Defined.

(** ** The registry *)

Lemma NoDup_snoc {A} (l : list A) (x : A) :
  NoDup (l ++ [x]) <-> NoDup l /\ x ∉ l.
Proof.
  rewrite NoDup_app. split.
  - intros (Hl & Hx & _). split; [exact Hl|].
    intros Hin. apply (Hx x Hin). now apply list_elem_of_singleton.
  - intros (Hl & Hx). split; [exact Hl|]. split.
    + intros y Hy Hy'. apply list_elem_of_singleton in Hy'. now subst.
    + apply NoDup_singleton.
Qed.

Lemma device_names_addDevice a w :
  device_names (snd (House_addDevice a w)) =
    device_names w ++ [name ∘ base <$> heap w !! a].
Proof. unfold device_names. simpl. now rewrite map_app. Qed.

Lemma user_names_addUser u w :
  user_names (snd (House_addUser u w)) = user_names w ++ [user_name u].
Proof. unfold user_names. simpl. now rewrite map_app. Qed.

(** [find_device] stops at the first reference whose device has the
    name. *)
Lemma find_device_first h nm l a :
  find_device h nm l = Ret (Some a) <->
  exists l1 l2,
    l = l1 ++ a :: l2 /\
    Forall (fun b => exists d, h !! b = Some d /\ name (base d) <> nm) l1 /\
    exists d, h !! a = Some d /\ name (base d) = nm.
Proof.
  induction l as [|b l IH]; simpl.
  - split; [discriminate|]. intros (l1 & l2 & E & _).
    destruct l1; discriminate.
  - destruct (h !! b) as [d|] eqn:Hb.
    + destruct (bool_decide_reflect (name (base d) = nm)) as [Hn|Hn].
      * split.
        -- intros [= <-]. exists [], l. repeat split; eauto.
        -- intros (l1 & l2 & E & Hl1 & d' & Ha & Hn').
           destruct l1 as [|b' l1]; simpl in E; injection E as -> E.
           ++ reflexivity.
           ++ apply Forall_cons in Hl1 as [(d2 & Hb2 & Hn2) _]. congruence.
      * rewrite IH. split.
        -- intros (l1 & l2 & -> & Hl1 & Ha).
           exists (b :: l1), l2. repeat split; [|exact Ha].
           constructor; eauto.
        -- intros (l1 & l2 & E & Hl1 & d' & Ha & Hn').
           destruct l1 as [|b' l1]; simpl in E; injection E as -> E.
           ++ congruence.
           ++ apply Forall_cons in Hl1 as [_ Hl1]. exists l1, l2. eauto.
    + split; [discriminate|].
      intros (l1 & l2 & E & Hl1 & d' & Ha & Hn').
      destruct l1 as [|b' l1]; simpl in E; injection E as -> E.
      * congruence.
      * apply Forall_cons in Hl1 as [(d2 & Hb2 & _) _]. congruence.
Qed.

Lemma find_user_first nm (l : list User) u :
  List.find (fun user => bool_decide (user_name user = nm)) l = Some u <->
  exists l1 l2,
    l = l1 ++ u :: l2 /\
    Forall (fun v => user_name v <> nm) l1 /\
    user_name u = nm.
Proof.
  induction l as [|v l IH]; simpl.
  - split; [discriminate|]. intros (l1 & l2 & E & _).
    destruct l1; discriminate.
  - destruct (bool_decide_reflect (user_name v = nm)) as [Hn|Hn].
    + split.
      * intros [= <-]. exists [], l. repeat split; eauto.
      * intros (l1 & l2 & E & Hl1 & Hn').
        destruct l1 as [|b' l1]; simpl in E; injection E as -> E.
        -- reflexivity.
        -- apply Forall_cons in Hl1 as [Hn2 _]. congruence.
    + rewrite IH. split.
      * intros (l1 & l2 & -> & Hl1 & Ha).
        exists (v :: l1), l2. repeat split; [|exact Ha].
        constructor; eauto.
      * intros (l1 & l2 & E & Hl1 & Hn').
        destruct l1 as [|b' l1]; simpl in E; injection E as -> E.
        -- congruence.
        -- apply Forall_cons in Hl1 as [_ Hl1]. exists l1, l2. eauto.
Qed.

(** A transition changes no name and neither array of the house. *)
Lemma call_keeps_names t a d w w' o :
  heap w !! a = Some d -> has_method t d = true ->
  call t a w = (o, w') ->
  device_names w' = device_names w /\ devices w' = devices w /\
  users w' = users w.
Proof.
  intros Ha Hm E.
  destruct (call_run t a d w Ha Hm) as (w1 & E1 & Hh & _ & Hd & Hu & _).
  rewrite E in E1. injection E1 as _ <-.
  repeat split; try assumption.
  unfold device_names. rewrite Hd, Hh. apply map_ext. intros b.
  destruct (decide (a = b)) as [<-|Hne].
  - rewrite lookup_insert_eq, Ha. simpl. now rewrite mutation_name.
  - now rewrite lookup_insert_ne.
Qed.

(** C9, as claimed, fails: [addDevice] and [addUser] push whatever they
    are given.  The application's house has unique names; after adding a
    second device named 'Front Door' and a second user named 'John' both
    arrays hold a name twice. *)
Lemma add_breaks_unique_names :
  NoDup (device_names App.app_world) /\ NoDup (user_names App.app_world) /\
  ~ NoDup (device_names crowded_world) /\ ~ NoDup (user_names crowded_world).
Proof.
  repeat split.
  - refine (bool_decide_unpack _ _). vm_compute. exact I.
  - refine (bool_decide_unpack _ _). vm_compute. exact I.
  - intros H. apply (bool_decide_pack _) in H. vm_compute in H. exact H.
  - intros H. apply (bool_decide_pack _) in H. vm_compute in H. exact H.
Qed.

(** C9, amended.  [addDevice] and [addUser] append without looking at
    the names: after the call the names are unique exactly when they were
    unique before and the name added was not yet in the array.  A device
    transition changes neither array nor any name.  [findDevice] and
    [findUser] are functions of the registry and return, in any house, the
    first entry in insertion order that has the name. *)
Theorem registry_names w :
  (forall a d,
     heap w !! a = Some d ->
     House_addDevice a w = (Ret tt, set_devices (devices w ++ [a]) w) /\
     (NoDup (device_names (snd (House_addDevice a w))) <->
      NoDup (device_names w) /\ Some (name (base d)) ∉ device_names w)) /\
  (forall u,
     fst (House_addUser u w) = Ret tt /\
     users (snd (House_addUser u w)) = users w ++ [u] /\
     (NoDup (user_names (snd (House_addUser u w))) <->
      NoDup (user_names w) /\ user_name u ∉ user_names w)) /\
  (forall t a d o w',
     heap w !! a = Some d -> has_method t d = true ->
     call t a w = (o, w') ->
     device_names w' = device_names w /\ user_names w' = user_names w) /\
  (forall nm a,
     House_findDevice nm w = (Ret (Some a), w) <->
     exists l1 l2,
       devices w = l1 ++ a :: l2 /\
       Forall (fun b => exists d, heap w !! b = Some d /\ name (base d) <> nm)
              l1 /\
       exists d, heap w !! a = Some d /\ name (base d) = nm) /\
  (forall nm u,
     House_findUser nm w = (Ret (Some u), w) <->
     exists l1 l2,
       users w = l1 ++ u :: l2 /\
       Forall (fun v => user_name v <> nm) l1 /\
       user_name u = nm).
Proof.
  split; [|split; [|split; [|split]]].
  - intros a d Ha. split; [reflexivity|].
    rewrite device_names_addDevice, NoDup_snoc, Ha. reflexivity.
  - intros u. split; [reflexivity|]. split; [reflexivity|].
    rewrite user_names_addUser, NoDup_snoc. reflexivity.
  - intros t a d o w' Ha Hm E.
    destruct (call_keeps_names t a d w w' o Ha Hm E) as (En & _ & Eu).
    split; [exact En|]. unfold user_names. now rewrite Eu.
  - intros nm a. unfold House_findDevice. rewrite <- find_device_first.
    split; [intros [= E]; exact E | intros ->; reflexivity].
  - intros nm u. unfold House_findUser. rewrite <- find_user_first.
    split; [intros [= E]; exact E | intros ->; reflexivity].
Qed.

Lemma registry_names_witness :
  ~ NoDup (device_names (snd (House_addDevice App.frontDoor App.app_world))) /\
  NoDup (user_names (snd (House_addUser (mkUser "Paul") App.app_world))) /\
  House_findDevice "Front Door" crowded_world =
    (Ret (Some App.frontDoor), crowded_world).
Proof.
  destruct (registry_names App.app_world) as (Hadd & Huser & _).
  destruct (registry_names crowded_world) as (_ & _ & _ & Hfind & _).
  split; [|split].
  - intros H.
    apply (proj2 (Hadd App.frontDoor (App.new_Door "Front Door") eq_refl)) in H.
    destruct H as [_ H]. apply H.
    refine (bool_decide_unpack _ _). vm_compute. exact I.
  - apply (Huser (mkUser "Paul")). split.
    + refine (bool_decide_unpack _ _). vm_compute. exact I.
    + intros Hin. apply (bool_decide_pack _) in Hin. vm_compute in Hin.
      exact Hin.
  - apply Hfind. exists [App.livingRoomLight], [2; 3; 4].
    split; [vm_compute; reflexivity|]. split.
    + repeat constructor. eexists. split; [vm_compute; reflexivity|].
      discriminate.
    + eexists. split; [vm_compute; reflexivity | reflexivity].
Defined.

(** ** Commands never touch a remote control *)

Module RemoteFrame.

Create HintDb remote_frame.

(** Goals [commutes (set_remotes r) m]: follow the shape of [m]. *)
Ltac commuting :=
  repeat first
    [ apply commutes_ret
    | apply commutes_throw
    | apply commutes_gets; intros; reflexivity
    | apply commutes_modify; intros; reflexivity
    | apply commutes_forEach; intros
    | apply commutes_bind; [|intros]
    | match goal with
      | |- commutes _ (match ?x with _ => _ end) => destruct x
      end
    | solve [eauto with remote_frame] ].

Section Frame.

Variable r : gmap nat (list Command).

Lemma deref_commutes a : commutes (set_remotes r) (deref a).
Proof. intros w. unfold deref. simpl. now destruct (heap w !! a). Qed.

Hint Resolve deref_commutes : remote_frame.

Lemma assign_commutes a f : commutes (set_remotes r) (assign a f).
Proof. unfold assign. commuting. Qed.

Lemma systemLog_commutes m : commutes (set_remotes r) (House_systemLog m).
Proof. unfold House_systemLog. commuting. Qed.

Hint Resolve assign_commutes systemLog_commutes : remote_frame.

Lemma update_commutes h a :
  commutes (set_remotes r) (HeatingSystem_update h a).
Proof.
  unfold HeatingSystem_update, HeatingSystem_setStrategy,
    HeatingSystem_heat.
  commuting.
Qed.

Hint Resolve update_commutes : remote_frame.

Lemma notifyObservers_commutes a :
  commutes (set_remotes r) (Device_notifyObservers a).
Proof. unfold Device_notifyObservers, call_update. commuting. Qed.

Hint Resolve notifyObservers_commutes : remote_frame.

Lemma call_commutes t a : commutes (set_remotes r) (call t a).
Proof.
  destruct t; unfold call, turnOn, turnOff, lock, unlock, setTemperature,
    Light_turnOn, Light_turnOff, Door_lock, Door_unlock,
    TemperatureSensor_setTemperature, DeviceAdapter_turnOn,
    DeviceAdapter_turnOff;
    commuting.
Qed.

Lemma findDevice_commutes nm : commutes (set_remotes r) (House_findDevice nm).
Proof. intros w. reflexivity. Qed.

Hint Resolve findDevice_commutes : remote_frame.

Lemma refuses_commutes c : commutes (set_remotes r) (SecurityProxy_refuses c).
Proof. unfold SecurityProxy_refuses. destruct c; simpl; commuting. Qed.

Hint Resolve refuses_commutes : remote_frame.

Lemma execute_commutes c : commutes (set_remotes r) (Command_execute c).
Proof.
  induction c; simpl.
  - apply (call_commutes TurnOn).
  - apply (call_commutes TurnOff).
  - apply (call_commutes Lock).
  - apply (call_commutes Unlock).
  - commuting.
  - commuting.
Qed.

Lemma undo_commutes c : commutes (set_remotes r) (Command_undo c).
Proof.
  destruct c; simpl.
  - apply (call_commutes TurnOff).
  - apply (call_commutes TurnOn).
  - apply (call_commutes Unlock).
  - apply (call_commutes Lock).
  - apply commutes_throw.
  - apply commutes_throw.
Qed.

End Frame.

Lemma set_remotes_same w : set_remotes (remotes w) w = w.
Proof. now destruct w. Qed.

Lemma set_remotes_twice r1 r2 w :
  set_remotes r1 (set_remotes r2 w) = set_remotes r1 w.
Proof. reflexivity. Qed.

(** A method that commutes with every change of the remotes leaves them
    as they are. *)
Lemma remotes_kept {X} (m : World -> X * World) w o w' :
  (forall r, commutes (set_remotes r) m) ->
  m w = (o, w') -> remotes w' = remotes w.
Proof.
  intros Hm E.
  pose proof (commutes_run _ m w o w' (Hm (remotes w)) E) as E'.
  rewrite set_remotes_same, E in E'. injection E' as E'.
  now rewrite E'.
Qed.

End RemoteFrame.

Import RemoteFrame.

(** ** The remote control *)

Module Invoker.

Lemma history_with_history this h w : history this (with_history this h w) = h.
Proof. unfold history, with_history. simpl. now rewrite lookup_insert_eq. Qed.

Lemma last_snoc (h : list Command) c :
  List.last (map Some (h ++ [c])) None = Some c.
Proof. rewrite map_app. simpl. apply last_last. Qed.

(** [pressButton]: the result of [execute()] comes back and the command
    is at the end of the history. *)
Lemma pressButton_run this c w s w' :
  Command_execute c w = (Ret s, w') ->
  RemoteControl_pressButton this c w =
    (Ret s, with_history this (history this w ++ [c]) w').
Proof.
  intros E.
  pose proof (remotes_kept _ w _ w' (fun r => execute_commutes r c) E) as Hr.
  unfold RemoteControl_pressButton. rewrite (bind_Ret _ _ _ _ _ E).
  unfold history_push, set_history, bind, gets, modify, ret, with_history,
    history.
  now rewrite Hr.
Qed.

(** An exception of [execute()] leaves [pressButton] before the push. *)
Lemma pressButton_throw this c w e w' :
  Command_execute c w = (Throw e, w') ->
  RemoteControl_pressButton this c w = (Throw e, w').
Proof.
  intros E. unfold RemoteControl_pressButton.
  now rewrite (bind_Throw _ _ _ _ _ E).
Qed.

(** [undo()] on a history that ends with [c]: [c] is popped, and the
    outcome is that of [c.undo()]. *)
Lemma undo_run_last this h c w :
  history this w = h ++ [c] ->
  RemoteControl_undo this w = Command_undo c (with_history this h w).
Proof.
  intros Hh. unfold RemoteControl_undo, bind at 1, gets. rewrite Hh.
  replace (0 <? length (h ++ [c]))%nat with true
    by (rewrite length_app; simpl; symmetry; apply Nat.ltb_lt; lia).
  unfold history_pop, bind, gets. rewrite Hh, last_snoc.
  unfold set_history, modify, ret. now rewrite removelast_last.
Qed.

Lemma undo_run_empty this w :
  history this w = [] ->
  RemoteControl_undo this w = (Ret no_commands, w).
Proof.
  intros Hh. unfold RemoteControl_undo, bind, gets. now rewrite Hh.
Qed.

Lemma undo_in_order_commutes r cs :
  commutes (set_remotes r) (undo_in_order cs).
Proof.
  induction cs as [|c cs IH]; intros w; simpl; [reflexivity|].
  rewrite (undo_commutes r c w).
  destruct (Command_undo c w) as [o w1].
  rewrite (IH w1). now destruct (undo_in_order cs w1).
Qed.

Lemma press_all_run this cs : forall w rs w1,
  press_all this cs w = (Ret rs, w1) ->
  execute_all cs w = (Ret rs, set_remotes (remotes w) w1) /\
  history this w1 = history this w ++ cs.
Proof.
  induction cs as [|c cs IH]; intros w rs w1 E; simpl in *.
  - injection E as <- <-. now rewrite set_remotes_same, app_nil_r.
  - unfold bind at 1 in E.
    destruct (Command_execute c w) as [[s|e] w'] eqn:Ec.
    + rewrite (pressButton_run this c w s w' Ec) in E.
      unfold bind at 1 in E.
      destruct (press_all this cs _) as [[rs'|e] w2] eqn:Ep;
        [|discriminate].
      injection E as <- <-.
      destruct (IH _ _ _ Ep) as (Ee & Hh).
      rewrite history_with_history in Hh.
      pose proof (remotes_kept _ w _ w' (fun r => execute_commutes r c) Ec)
        as Hr.
      split; [|now rewrite Hh, <- app_assoc].
      assert (Ec' : execute_all cs w' = (Ret rs', set_remotes (remotes w) w2)).
      { assert (Hc : forall r, commutes (set_remotes r) (execute_all cs)).
        { clear. intros r. induction cs as [|c cs IH]; simpl.
          - apply commutes_ret.
          - apply commutes_bind; [apply execute_commutes|].
            intros a. apply commutes_bind; [exact IH|].
            intros b. apply commutes_ret. }
        pose proof (commutes_run _ _ _ _ _ (Hc (remotes w')) Ee) as E'.
        unfold with_history in E'.
        rewrite !set_remotes_twice, set_remotes_same in E'.
        now rewrite Hr in E'. }
      rewrite (bind_Ret _ _ _ _ _ Ec). now rewrite (bind_Ret _ _ _ _ _ Ec').
    + rewrite (pressButton_throw this c w e w' Ec) in E. discriminate.
Qed.

(** [n] undos on a history that ends with the [n] commands [cs]: the
    outcomes and the effects on the devices are those of undoing the
    commands of [cs] last to first, and [cs] is gone from the history. *)
Lemma undo_times_lifo this cs : forall h w,
  history this w = h ++ cs ->
  exists os w2,
    undo_times this (length cs) w = (os, w2) /\
    history this w2 = h /\
    undo_in_order (rev cs) w = (os, set_remotes (remotes w) w2).
Proof.
  induction cs as [|c cs IH] using rev_ind; intros h w Hh.
  - exists [], w. simpl. rewrite app_nil_r in Hh.
    now rewrite set_remotes_same.
  - rewrite length_app, Nat.add_1_r, rev_unit. simpl.
    rewrite app_assoc in Hh.
    rewrite (undo_run_last this (h ++ cs) c w Hh).
    destruct (Command_undo c w) as [o w1] eqn:Ec.
    pose proof (remotes_kept _ w _ w1 (fun r => undo_commutes r c) Ec) as Hr1.
    unfold with_history.
    rewrite (commutes_run _ _ _ _ _ (undo_commutes _ c) Ec).
    set (wA := set_remotes (<[this := h ++ cs]> (remotes w)) w1).
    assert (HhA : history this wA = h ++ cs)
      by (unfold history, wA; simpl; now rewrite lookup_insert_eq).
    destruct (IH h wA HhA) as (os & w2 & Et & Hh2 & Eo).
    exists (o :: os), w2. rewrite Et. repeat split; [exact Hh2|].
    destruct (undo_in_order (rev cs) w1) as [os' w2'] eqn:Eo'.
    pose proof (remotes_kept _ w1 _ w2'
                  (fun r => undo_in_order_commutes r (rev cs)) Eo') as Hr2.
    pose proof (commutes_run _ _ _ _ _
                  (undo_in_order_commutes (<[this := h ++ cs]> (remotes w))
                     (rev cs)) Eo') as Eo''.
    fold wA in Eo''. rewrite Eo in Eo''.
    apply pair_equal_spec in Eo'' as [<- Ew].
    apply (f_equal (set_remotes (remotes w))) in Ew.
    rewrite !set_remotes_twice in Ew.
    rewrite Ew, <- Hr1, <- Hr2. now rewrite set_remotes_same.
Qed.

End Invoker.

Import Invoker.

(** C2.  [pressButton(command)] runs [command.execute()] and, whatever
    string that returns (the proxy's warning included), puts the command at
    the end of the history and returns the string.  After the [n]
    [pressButton] calls of [cs], [n] calls of [undo()] pop the commands of
    [cs] last to first and have, call by call, the outcome and the effect
    on the devices of that command's [undo()]; the history is then what it
    was before the presses, and on an empty history one more [undo()]
    returns the fixed string and leaves the world as it is. *)
Theorem remote_control_is_a_stack this cs w rs w1 :
  press_all this cs w = (Ret rs, w1) ->
  (forall c w0 s w0',
     Command_execute c w0 = (Ret s, w0') ->
     RemoteControl_pressButton this c w0 =
       (Ret s, with_history this (history this w0 ++ [c]) w0')) /\
  execute_all cs w = (Ret rs, set_remotes (remotes w) w1) /\
  history this w1 = history this w ++ cs /\
  exists os w2,
    undo_times this (length cs) w1 = (os, w2) /\
    undo_in_order (rev cs) w1 = (os, set_remotes (remotes w1) w2) /\
    history this w2 = history this w /\
    (history this w = [] ->
     RemoteControl_undo this w2 = (Ret no_commands, w2)).
Proof.
  intros E.
  destruct (press_all_run this cs w rs w1 E) as (Ee & Hh).
  split; [intros c w0 s w0'; apply pressButton_run|].
  split; [exact Ee|]. split; [exact Hh|].
  destruct (undo_times_lifo this cs (history this w) w1 Hh)
    as (os & w2 & Et & Hh2 & Eo).
  exists os, w2. repeat split; try assumption.
  intros Hempty. apply undo_run_empty. now rewrite Hh2.
Qed.

Lemma remote_control_is_a_stack_witness :
  exists rs w1,
    press_all 7 [LightOnCommand App.livingRoomLight;
                 DoorUnlockCommand App.frontDoor] App.app_world =
      (Ret rs, w1) /\
    history 7 w1 =
      [LightOnCommand App.livingRoomLight; DoorUnlockCommand App.frontDoor] /\
    exists os w2,
      undo_times 7 2 w1 = (os, w2) /\
      undo_in_order [DoorUnlockCommand App.frontDoor;
                     LightOnCommand App.livingRoomLight] w1 =
        (os, set_remotes (remotes w1) w2) /\
      history 7 w2 = [] /\
      RemoteControl_undo 7 w2 = (Ret no_commands, w2).
Proof.
  set (cs := [LightOnCommand App.livingRoomLight;
              DoorUnlockCommand App.frontDoor]).
  set (run := press_all 7 cs App.app_world).
  assert (E : run =
              (Ret ["Light Living Room Light turned on";
                    "Door Front Door unlocked"], snd run))
    by (vm_compute; reflexivity).
  destruct (remote_control_is_a_stack 7 cs App.app_world _ _ E)
    as (_ & _ & Hh & os & w2 & Et & Eo & Hh2 & Hempty).
  eexists _, (snd run). split; [exact E|]. split; [exact Hh|].
  exists os, w2. repeat split.
  - exact Et.
  - exact Eo.
  - exact Hh2.
  - apply Hempty. reflexivity.
Defined.

(** C3.  What the code does where the claim has [undo()] of a wrapper
    delegate to the wrapped command: [SecurityProxy] and [LogCommand] have
    no [undo] method, so the call is a [TypeError] and the wrapped
    command's [undo()] is not run.  After a recorded refusal, the remote's
    [undo()] pops the proxy and throws; the light is not touched. *)
Theorem wrapper_undo_throws :
  (forall c w, Command_undo (SecurityProxy c) w = (Throw TypeError, w)) /\
  (forall c w, Command_undo (LogCommand c) w = (Throw TypeError, w)) /\
  history 7 refused_world =
    [SecurityProxy (LightOffCommand App.livingRoomLight)] /\
  RemoteControl_undo 7 refused_world =
    (Throw TypeError, with_history 7 [] refused_world) /\
  heap (with_history 7 [] refused_world) !! App.livingRoomLight =
    Some (Light (mkBase "Living Room Light" true [])).
Proof.
  repeat split; vm_compute; reflexivity.
Qed.

(** ** The scenarios of the application, run *)

Module Scenarios.

(** John, Mary and Paul in the chat room: a broadcast of John reaches Mary
    and Paul and is recorded once. *)
Example broadcast_john_mary_paul :
  chat_log
    (snd (HouseChatRoom_sendMessage App.john "all" "hi"
            (set_chat_users [App.john; App.mary; mkUser "Paul"] empty_world)))
  = ["[John -> Mary]: hi"; "[John -> Paul]: hi"; "[John -> all]: hi"].
Proof. reflexivity. Qed.

(** The sensor of the application reporting 16, then 20. *)
Example sensor_reports_16 :
  let w := snd (setTemperature App.tempSensor (reading 16) App.app_world) in
  strategy App.heatingSystem w = ComfortMode /\
  system_log w =
    system_log App.app_world ++
      ["Heating system activated: Comfort mode: Heating to 22C"].
Proof. split; vm_compute; reflexivity. Qed.

Example sensor_reports_20 :
  let w := snd (setTemperature App.tempSensor (reading 20) App.app_world) in
  strategy App.heatingSystem w = EcoMode /\
  system_log w = system_log App.app_world.
Proof. split; vm_compute; reflexivity. Qed.

(** [leaveHome] with the light on and the front door locked: the light
    goes off, the door is locked again. *)
Example leaveHome_door_locked :
  fst (SmartHomeFacade_leaveHome 7
         (snd (turnOn App.livingRoomLight App.app_world)))
  = Ret ["Light Living Room Light turned off"; "Door Front Door locked"].
Proof. vm_compute. reflexivity. Qed.

(** [leaveHome] with the front door unlocked: the proxy refuses, the light
    stays on, both commands are in the history. *)
Example leaveHome_door_unlocked :
  let '(r, w) := SmartHomeFacade_leaveHome 7 at_home_world in
  r = Ret [security_warning; "Door Front Door locked"] /\
  (isOn ∘ base <$> heap w !! App.livingRoomLight) = Some true /\
  history 7 w =
    [LogCommand (SecurityProxy (LightOffCommand App.livingRoomLight));
     LogCommand (DoorLockCommand App.frontDoor)].
Proof. vm_compute. repeat split; reflexivity. Qed.

(** [arriveHome] then [leaveHome], as in [simulateDay]. *)
Example arrive_then_leave :
  fst ((SmartHomeFacade_arriveHome 7 ;; SmartHomeFacade_leaveHome 7)
         App.app_world)
  = Ret [security_warning; "Door Front Door locked"].
Proof. vm_compute. reflexivity. Qed.

End Scenarios.

(** * Further properties *)

(** ** Method calls on the wrong object *)

Lemma call_throws t a w :
  lacks_method t (heap w !! a) = true ->
  call t a w = (Throw TypeError, w).
Proof.
  unfold lacks_method. intros H.
  destruct t; unfold call, turnOn, turnOff, lock, unlock, setTemperature,
    bind, deref;
    destruct (heap w !! a) as [[]|]; try reflexivity; discriminate.
Qed.

(** X1.  A call of [turnOn], [turnOff], [lock], [unlock] or
    [setTemperature] on [undefined] or on a device whose class does not
    define the method is a [TypeError] and changes nothing; so is
    [execute()] and [undo()] of a command built on such an object. *)
Theorem missing_method_is_TypeError t a w :
  lacks_method t (heap w !! a) = true ->
  call t a w = (Throw TypeError, w) /\
  (t = TurnOn ->
     Command_execute (LightOnCommand a) w = (Throw TypeError, w) /\
     Command_undo (LightOffCommand a) w = (Throw TypeError, w)) /\
  (t = TurnOff ->
     Command_execute (LightOffCommand a) w = (Throw TypeError, w) /\
     Command_undo (LightOnCommand a) w = (Throw TypeError, w)) /\
  (t = Lock ->
     Command_execute (DoorLockCommand a) w = (Throw TypeError, w) /\
     Command_undo (DoorUnlockCommand a) w = (Throw TypeError, w)) /\
  (t = Unlock ->
     Command_execute (DoorUnlockCommand a) w = (Throw TypeError, w) /\
     Command_undo (DoorLockCommand a) w = (Throw TypeError, w)).
Proof.
  intros H. pose proof (call_throws t a w H) as E.
  split; [exact E|].
  split; [|split; [|split]]; intros ->; split; exact E.
Qed.

Lemma missing_method_is_TypeError_witness :
  call TurnOff App.frontDoor App.app_world = (Throw TypeError, App.app_world).
Proof.
  refine (proj1 (missing_method_is_TypeError TurnOff App.frontDoor
                   App.app_world _)).
  vm_compute. reflexivity.
Defined.

(** ** Transitions that no heating system reacts to *)

Lemma set_updates_same w : set_updates (updates w) w = w.
Proof. now destruct w. Qed.

Lemma forEach_call_update_quiet a d os : forall w,
  heap w !! a = Some d ->
  instanceof_TemperatureSensor (Some d) = false ->
  forEach (call_update a) os w =
    (Ret tt, set_updates (updates w ++ map (fun o => (o, d)) os) w).
Proof.
  induction os as [|o os IH]; intros w Ha Hd; simpl.
  - unfold ret. now rewrite app_nil_r, set_updates_same.
  - set (w1 := set_updates (updates w ++ [(o, d)]) w).
    assert (E1 : call_update a o w = (Ret tt, w1)).
    { unfold call_update, bind at 1, deref. rewrite Ha.
      unfold bind, modify. fold w1.
      apply update_other. change (heap w1) with (heap w). now rewrite Ha. }
    rewrite (bind_Ret _ _ _ _ _ E1).
    rewrite (IH w1 Ha Hd). unfold w1. simpl. now rewrite <- app_assoc.
Qed.

Lemma switch_not_sensor t d :
  is_switch t = true -> has_method t d = true ->
  instanceof_TemperatureSensor (Some (mutation t d)) = false.
Proof. destruct t, d; simpl; intros; (discriminate || reflexivity). Qed.

Lemma assign_run a d f w :
  heap w !! a = Some d ->
  assign a f w = (Ret tt, set_heap (<[a := f d]> (heap w)) w).
Proof. intros Ha. unfold assign, bind, deref, modify. now rewrite Ha. Qed.

Lemma switch_run t a d w :
  is_switch t = true ->
  heap w !! a = Some d -> has_method t d = true ->
  call t a w =
    (Ret (confirmation t d),
     set_updates
       (updates w ++ map (fun o => (o, mutation t d)) (observers (base d)))
       (set_heap (<[a := mutation t d]> (heap w)) w)).
Proof.
  intros Hs Ha Hm.
  pose proof (switch_not_sensor t d Hs Hm) as Hq.
  pose proof (mutation_observers t d) as Hobs.
  set (w1 := set_heap (<[a := mutation t d]> (heap w)) w).
  assert (Ha1 : heap w1 !! a = Some (mutation t d)) by apply lookup_insert_eq.
  assert (En : Device_notifyObservers a w1 =
               (Ret tt,
                set_updates
                  (updates w1 ++
                     map (fun o => (o, mutation t d)) (observers (base d)))
                  w1)).
  { unfold Device_notifyObservers, bind, deref. rewrite Ha1, Hobs.
    now apply forEach_call_update_quiet. }
  destruct t, d; try discriminate Hm; try discriminate Hs;
    unfold call, turnOn, turnOff, lock, unlock;
    unfold bind at 1, deref at 1; rewrite Ha; cbv beta iota;
    unfold Light_turnOn, Light_turnOff, Door_lock, Door_unlock,
      DeviceAdapter_turnOn, DeviceAdapter_turnOff;
    rewrite (bind_Ret _ _ _ _ _ (assign_run a _ _ w Ha));
    fold w1; rewrite (bind_Ret _ _ _ _ _ En);
    unfold bind, deref, ret; simpl; rewrite lookup_insert_eq; reflexivity.
Qed.

(** X2.  [turnOn], [turnOff], [lock] and [unlock], on a device that has
    the method, do exactly this: the field is assigned in the device, one
    [update] call per observer is made, and the confirmation is returned.
    No heating system changes its strategy, no line is logged, no other
    device, array or history is touched. *)
Theorem switch_changes_only_its_device t a d w :
  is_switch t = true ->
  heap w !! a = Some d -> has_method t d = true ->
  exists w',
    call t a w = (Ret (confirmation t d), w') /\
    w' = set_updates
           (updates w ++
              map (fun o => (o, mutation t d)) (observers (base d)))
           (set_heap (<[a := mutation t d]> (heap w)) w) /\
    heaters w' = heaters w /\ system_log w' = system_log w /\
    (forall h, strategy h w' = strategy h w) /\
    (forall b, b <> a -> heap w' !! b = heap w !! b).
Proof.
  intros Hs Ha Hm. eexists. split; [apply (switch_run t a d w Hs Ha Hm)|].
  repeat split. intros b Hb. simpl. now rewrite lookup_insert_ne.
Qed.

Lemma switch_changes_only_its_device_witness :
  exists w',
    call Unlock App.frontDoor App.app_world =
      (Ret "Door Front Door unlocked", w') /\
    w' = set_updates (updates App.app_world ++ [])
           (set_heap (<[App.frontDoor := Door (mkBase "Front Door" false [])
                                              false]>
                        (heap App.app_world)) App.app_world) /\
    heaters w' = heaters App.app_world /\
    system_log w' = system_log App.app_world /\
    (forall h, strategy h w' = strategy h App.app_world) /\
    (forall b, b <> App.frontDoor ->
               heap w' !! b = heap App.app_world !! b).
Proof.
  apply (switch_changes_only_its_device Unlock App.frontDoor
           (App.new_Door "Front Door") App.app_world).
  - reflexivity.
  - vm_compute. reflexivity.
  - reflexivity.
Defined.

(** ** A temperature reading reaches every subscribed heating system *)

Lemma call_update_sensor a b t o w :
  heap w !! a = Some (TemperatureSensor b t) ->
  exists w',
    call_update a o w = (Ret tt, w') /\
    notified [(o, TemperatureSensor b t)] w w' /\
    heaters w' = <[o := selected t]> (heaters w) /\
    system_log w' =
      system_log w ++ (if (t <? 18)%Z then [activation_line] else []).
Proof.
  intros Ha.
  set (w1 := set_updates (updates w ++ [(o, TemperatureSensor b t)]) w).
  assert (Ha1 : heap w1 !! a = Some (TemperatureSensor b t)) by exact Ha.
  assert (E0 : call_update a o w = HeatingSystem_update o a w1)
    by (unfold call_update, bind, deref, modify; now rewrite Ha).
  unfold selected. destruct (Z.ltb_spec t 18) as [Ht|Ht].
  - eexists. split; [rewrite E0; apply (update_cold o a b t w1 Ha1 Ht)|].
    unfold notified; simpl. tauto.
  - eexists. split; [rewrite E0; apply (update_warm o a b t w1 Ha1 Ht)|].
    unfold notified; simpl. rewrite app_nil_r. tauto.
Qed.

Lemma forEach_call_update_sensor a b t os : forall w,
  heap w !! a = Some (TemperatureSensor b t) ->
  exists w',
    forEach (call_update a) os w = (Ret tt, w') /\
    notified (map (fun o => (o, TemperatureSensor b t)) os) w w' /\
    heaters w' = foldl (fun m h => <[h := selected t]> m) (heaters w) os /\
    system_log w' =
      system_log w ++
        (if (t <? 18)%Z then replicate (length os) activation_line else []).
Proof.
  induction os as [|o os IH]; intros w Ha; simpl.
  - exists w. split; [reflexivity|]. split; [apply notified_nil|].
    split; [reflexivity|]. destruct (t <? 18)%Z; now rewrite app_nil_r.
  - destruct (call_update_sensor a b t o w Ha) as (w1 & E1 & N1 & Hh1 & Hl1).
    assert (Ha1 : heap w1 !! a = Some (TemperatureSensor b t))
      by (destruct N1 as (-> & _); exact Ha).
    destruct (IH w1 Ha1) as (w2 & E2 & N2 & Hh2 & Hl2).
    exists w2. split; [now rewrite (bind_Ret _ _ _ _ _ E1)|].
    split; [exact (notified_app [_] _ _ _ _ N1 N2)|].
    split; [now rewrite Hh2, Hh1|].
    rewrite Hl2, Hl1. destruct (t <? 18)%Z; simpl.
    + now rewrite <- app_assoc.
    + now rewrite !app_nil_r.
Qed.

Lemma lookup_foldl_insert (s : HeatingStrategy) (os : list nat) :
  forall (m : gmap nat HeatingStrategy) h,
    foldl (fun m h => <[h := s]> m) m os !! h =
      if decide (h ∈ os) then Some s else m !! h.
Proof.
  induction os as [|o os IH]; intros m h; simpl.
  - destruct (decide (h ∈ [])) as [Hin|_]; [|reflexivity].
    now apply not_elem_of_nil in Hin.
  - rewrite IH.
    destruct (decide (h ∈ os)) as [Hin|Hin].
    + rewrite decide_True; [reflexivity | now apply elem_of_cons; right].
    + destruct (decide (h = o)) as [->|Hne].
      * rewrite lookup_insert_eq.
        rewrite decide_True; [reflexivity | now apply elem_of_cons; left].
      * rewrite lookup_insert_ne by congruence.
        rewrite decide_False; [reflexivity|].
        intros [?|?]%elem_of_cons; contradiction.
Qed.

(** X3.  [setTemperature(temp)] on a sensor: when it returns, every
    heating system subscribed to the sensor has the strategy selected by
    [temp] ([ComfortMode] below 18, [EcoMode] otherwise), every other
    heating system has the strategy it had, and the system log has one
    activation line more per subscription when [temp] is below 18 and none
    otherwise. *)
Theorem setTemperature_drives_observers a b t0 (temp : SafeInteger) w :
  heap w !! a = Some (TemperatureSensor b t0) ->
  exists w',
    setTemperature a temp w =
      (Ret ("Temperature sensor " +:+ name b +:+ " updated to "
            +:+ pretty (number temp) +:+ "C"), w') /\
    heap w' !! a = Some (TemperatureSensor b (number temp)) /\
    (forall h, h ∈ observers b -> strategy h w' = selected (number temp)) /\
    (forall h, h ∉ observers b -> strategy h w' = strategy h w) /\
    system_log w' =
      system_log w ++
        (if (number temp <? 18)%Z
         then replicate (length (observers b)) activation_line
         else []).
Proof.
  intros Ha.
  set (w1 := set_heap (<[a := TemperatureSensor b (number temp)]> (heap w)) w).
  assert (Ha1 : heap w1 !! a = Some (TemperatureSensor b (number temp)))
    by apply lookup_insert_eq.
  destruct (forEach_call_update_sensor a b (number temp) (observers b) w1 Ha1)
    as (w' & E & N & Hh & Hl).
  assert (Ha' : heap w' !! a = Some (TemperatureSensor b (number temp)))
    by (destruct N as (-> & _); exact Ha1).
  exists w'. split; [|split; [exact Ha'|]].
  - unfold setTemperature, bind at 1, deref at 1. rewrite Ha.
    unfold TemperatureSensor_setTemperature.
    rewrite (bind_Ret _ _ _ _ _
               (assign_run a _ (set_temperature (number temp)) w Ha)).
    simpl set_temperature. fold w1.
    assert (En : Device_notifyObservers a w1 = (Ret tt, w'))
      by (unfold Device_notifyObservers, bind, deref; now rewrite Ha1).
    rewrite (bind_Ret _ _ _ _ _ En).
    unfold bind, deref, ret. now rewrite Ha'.
  - split; [|split].
    + intros h Hin. unfold strategy.
      rewrite Hh, lookup_foldl_insert, decide_True by exact Hin. reflexivity.
    + intros h Hin. unfold strategy.
      rewrite Hh, lookup_foldl_insert, decide_False by exact Hin. reflexivity.
    + exact Hl.
Qed.

Lemma setTemperature_drives_observers_witness :
  exists w',
    setTemperature App.tempSensor (reading 16) App.app_world =
      (Ret "Temperature sensor Temperature Sensor updated to 16C", w') /\
    heap w' !! App.tempSensor =
      Some (TemperatureSensor
              (mkBase "Temperature Sensor" false [App.heatingSystem]) 16) /\
    (forall h, h ∈ [App.heatingSystem] -> strategy h w' = ComfortMode) /\
    (forall h, h ∉ [App.heatingSystem] ->
               strategy h w' = strategy h App.app_world) /\
    system_log w' = system_log App.app_world ++ [activation_line].
Proof.
  apply (setTemperature_drives_observers App.tempSensor
           (mkBase "Temperature Sensor" false [App.heatingSystem]) 20
           (reading 16) App.app_world).
  vm_compute. reflexivity.
Defined.

(** ** Calling a transition again, and subscribing *)

Lemma mutation_twice t d : mutation t (mutation t d) = mutation t d.
Proof. destruct t, d; reflexivity. Qed.

Lemma confirmation_mutation t t' d :
  confirmation t (mutation t' d) = confirmation t d.
Proof. destruct t, t', d; reflexivity. Qed.

(** X4.  A transition called a second time returns the same confirmation
    and leaves every device as the first call left it; the observers are
    called again, once each. *)
Theorem transition_again_changes_nothing t a d w :
  heap w !! a = Some d -> has_method t d = true ->
  exists w1 w2,
    call t a w = (Ret (confirmation t d), w1) /\
    call t a w1 = (Ret (confirmation t d), w2) /\
    heap w2 = heap w1 /\
    updates w1 =
      updates w ++ map (fun o => (o, mutation t d)) (observers (base d)) /\
    updates w2 =
      updates w1 ++ map (fun o => (o, mutation t d)) (observers (base d)).
Proof.
  intros Ha Hm.
  destruct (call_run t a d w Ha Hm)
    as (w1 & E1 & Hh1 & _ & _ & _ & _ & _ & Hu1).
  assert (Ha1 : heap w1 !! a = Some (mutation t d))
    by (rewrite Hh1; apply lookup_insert_eq).
  assert (Hm1 : has_method t (mutation t d) = true)
    by now rewrite mutation_has_method.
  destruct (call_run t a _ w1 Ha1 Hm1)
    as (w2 & E2 & Hh2 & _ & _ & _ & _ & _ & Hu2).
  rewrite confirmation_mutation in E2.
  rewrite mutation_twice, mutation_observers in Hu2.
  exists w1, w2. repeat split; try assumption.
  rewrite Hh2, Hh1, mutation_twice. apply insert_insert_eq.
Qed.

Lemma transition_again_changes_nothing_witness :
  exists w1 w2,
    call (SetTemperature (reading 16)) App.tempSensor App.app_world =
      (Ret "Temperature sensor Temperature Sensor updated to 16C", w1) /\
    call (SetTemperature (reading 16)) App.tempSensor w1 =
      (Ret "Temperature sensor Temperature Sensor updated to 16C", w2) /\
    heap w2 = heap w1 /\
    updates w1 =
      updates App.app_world ++
        [(App.heatingSystem,
          TemperatureSensor
            (mkBase "Temperature Sensor" false [App.heatingSystem]) 16)] /\
    updates w2 =
      updates w1 ++
        [(App.heatingSystem,
          TemperatureSensor
            (mkBase "Temperature Sensor" false [App.heatingSystem]) 16)].
Proof.
  apply (transition_again_changes_nothing (SetTemperature (reading 16))
           App.tempSensor
           (TemperatureSensor
              (mkBase "Temperature Sensor" false [App.heatingSystem]) 20)
           App.app_world).
  - vm_compute. reflexivity.
  - reflexivity.
Defined.

(** X5.  [addObserver] does not look for the observer in the array: after
    [addObserver(o)] the device has one subscription more, at the end,
    and the next transition calls [update] once per subscription, the new
    one last; an observer added twice is called twice.  The device's
    fields and methods are as before. *)
Theorem addObserver_appends_a_subscription t a d o w :
  heap w !! a = Some d -> has_method t d = true ->
  exists w1 w2 d',
    Device_addObserver a o w = (Ret tt, w1) /\
    heap w1 = <[a := push_observer o d]> (heap w) /\
    call t a w1 = (Ret (confirmation t d), w2) /\
    heap w2 !! a = Some d' /\
    observers (base d') = observers (base d) ++ [o] /\
    updates w2 =
      updates w ++ map (fun x => (x, d')) (observers (base d) ++ [o]) /\
    count_occ Nat.eq_dec (observers (base d')) o =
      S (count_occ Nat.eq_dec (observers (base d)) o).
Proof.
  intros Ha Hm.
  set (w1 := set_heap (<[a := push_observer o d]> (heap w)) w).
  assert (Ha1 : heap w1 !! a = Some (push_observer o d))
    by apply lookup_insert_eq.
  assert (Hm1 : has_method t (push_observer o d) = true)
    by (destruct t, d; exact Hm).
  assert (Hobs : observers (base (push_observer o d)) =
                 observers (base d) ++ [o]) by now destruct d.
  destruct (call_run t a _ w1 Ha1 Hm1)
    as (w2 & E2 & Hh2 & _ & _ & _ & _ & _ & Hu2).
  exists w1, w2, (mutation t (push_observer o d)).
  split; [apply (assign_run a d _ w Ha)|]. split; [reflexivity|].
  split; [|split; [|split; [|split]]].
  - rewrite E2. f_equal. f_equal. destruct t, d; reflexivity.
  - rewrite Hh2. apply lookup_insert_eq.
  - now rewrite mutation_observers.
  - now rewrite Hu2, Hobs.
  - rewrite mutation_observers, Hobs, count_occ_app. simpl.
    destruct (Nat.eq_dec o o); [lia | contradiction].
Qed.

Lemma addObserver_appends_a_subscription_witness :
  exists w1 w2 d',
    Device_addObserver App.tempSensor App.heatingSystem App.app_world =
      (Ret tt, w1) /\
    heap w1 =
      <[App.tempSensor :=
          push_observer App.heatingSystem
            (TemperatureSensor
               (mkBase "Temperature Sensor" false [App.heatingSystem]) 20)]>
        (heap App.app_world) /\
    call (SetTemperature (reading 16)) App.tempSensor w1 =
      (Ret "Temperature sensor Temperature Sensor updated to 16C", w2) /\
    heap w2 !! App.tempSensor = Some d' /\
    observers (base d') = [App.heatingSystem; App.heatingSystem] /\
    updates w2 = [(App.heatingSystem, d'); (App.heatingSystem, d')] /\
    count_occ Nat.eq_dec (observers (base d')) App.heatingSystem = 2.
Proof.
  apply (addObserver_appends_a_subscription (SetTemperature (reading 16))
           App.tempSensor
           (TemperatureSensor
              (mkBase "Temperature Sensor" false [App.heatingSystem]) 20)
           App.heatingSystem App.app_world).
  - vm_compute. reflexivity.
  - reflexivity.
Defined.

(** ** What a command can change *)

Section Keeping.

Context {R : World -> World -> Prop}.
Hypothesis R_refl : forall w, R w w.
Hypothesis R_trans : forall w1 w2 w3, R w1 w2 -> R w2 w3 -> R w1 w3.

Lemma keeps_ret {A} (a : A) : keeps R (ret a).
Proof. intros w o w' [= _ <-]. apply R_refl. Qed.

Lemma keeps_throw {A} e : keeps R (@throw A e).
Proof. intros w o w' [= _ <-]. apply R_refl. Qed.

Lemma keeps_bind {A B} (m : M A) (k : A -> M B) :
  keeps R m -> (forall a, keeps R (k a)) -> keeps R (bind m k).
Proof.
  intros Hm Hk w o w' E. unfold bind in E.
  destruct (m w) as [[a|e] w1] eqn:E1.
  - exact (R_trans _ _ _ (Hm _ _ _ E1) (Hk a _ _ _ E)).
  - injection E as _ <-. exact (Hm _ _ _ E1).
Qed.

Lemma keeps_modify (f : World -> World) :
  (forall w, R w (f w)) -> keeps R (modify f).
Proof. intros Hf w o w' [= _ <-]. apply Hf. Qed.

End Keeping.

Lemma touches_only_refl a w : touches_only a w w.
Proof. unfold touches_only. tauto. Qed.

Lemma touches_only_trans a w1 w2 w3 :
  touches_only a w1 w2 -> touches_only a w2 w3 -> touches_only a w1 w3.
Proof.
  unfold touches_only.
  intros (H1 & H2 & H3 & ? & ? & ? & ? & ?) (K1 & K2 & K3 & ? & ? & ? & ? & ?).
  split; [|split; [|split; [|repeat split; congruence]]].
  - intros b Hb. now rewrite K1, H1.
  - intros b. now rewrite K2, H2.
  - intros b. now rewrite K3, H3.
Qed.

Lemma call_touches_only t a : keeps (touches_only a) (call t a).
Proof.
  intros w o w' E.
  destruct (lacks_method t (heap w !! a)) eqn:Hl.
  - rewrite (call_throws t a w Hl) in E. injection E as _ <-.
    apply touches_only_refl.
  - unfold lacks_method in Hl.
    destruct (heap w !! a) as [d|] eqn:Ha; [|discriminate].
    apply negb_false_iff in Hl.
    destruct (call_run t a d w Ha Hl)
      as (w1 & E1 & Hh & ? & ? & ? & ? & ? & _).
    rewrite E in E1. injection E1 as _ <-.
    unfold touches_only. repeat split; try assumption.
    + intros b Hb. rewrite Hh. now apply lookup_insert_ne.
    + intros b. rewrite Hh. destruct (decide (a = b)) as [<-|Hne].
      * rewrite lookup_insert_eq, Ha. simpl. now rewrite mutation_name.
      * now rewrite lookup_insert_ne.
    + intros b. rewrite Hh. destruct (decide (a = b)) as [<-|Hne].
      * rewrite lookup_insert_eq, Ha. simpl. now rewrite mutation_observers.
      * now rewrite lookup_insert_ne.
Qed.

(** The proxy's test reads the registry and changes nothing. *)
Lemma refuses_reads_only c w : snd (SecurityProxy_refuses c w) = w.
Proof.
  destruct c; try reflexivity.
  now rewrite SecurityProxy_refuses_run.
Qed.

Lemma systemLog_touches_only a m : keeps (touches_only a) (House_systemLog m).
Proof.
  apply keeps_modify. intros w. unfold touches_only. simpl. tauto.
Qed.

Lemma execute_touches_only c :
  keeps (touches_only (target c)) (Command_execute c).
Proof.
  induction c; simpl.
  - apply (call_touches_only TurnOn).
  - apply (call_touches_only TurnOff).
  - apply (call_touches_only Lock).
  - apply (call_touches_only Unlock).
  - intros w o w' E. unfold bind in E.
    pose proof (refuses_reads_only c w) as Hw.
    destruct (SecurityProxy_refuses c w) as [[[]|e] w1]; simpl in Hw; subst w1.
    + injection E as _ <-. apply touches_only_refl.
    + exact (IHc _ _ _ E).
    + injection E as _ <-. apply touches_only_refl.
  - apply (keeps_bind (touches_only_trans _));
      [apply systemLog_touches_only|]. intros _.
    apply (keeps_bind (touches_only_trans _));
      [exact IHc|]. intros r.
    apply (keeps_bind (touches_only_trans _));
      [apply systemLog_touches_only|]. intros _.
    apply (keeps_ret (touches_only_refl _)).
Qed.

Lemma undo_touches_only c : keeps (touches_only (target c)) (Command_undo c).
Proof.
  destruct c; simpl.
  - apply (call_touches_only TurnOff).
  - apply (call_touches_only TurnOn).
  - apply (call_touches_only Unlock).
  - apply (call_touches_only Lock).
  - apply (keeps_throw (touches_only_refl _)).
  - apply (keeps_throw (touches_only_refl _)).
Qed.

(** X6.  Whatever a command is wrapped in and whether it returns or
    throws, [execute()] and [undo()] leave every device other than the
    command's own as it was, change no device's name or subscriptions,
    and touch neither the house's arrays, nor the chat, nor any remote
    control's history. *)
Theorem command_touches_only_its_device c w :
  touches_only (target c) w (snd (Command_execute c w)) /\
  touches_only (target c) w (snd (Command_undo c w)).
Proof.
  split.
  - destruct (Command_execute c w) as [o w'] eqn:E.
    exact (execute_touches_only c w o w' E).
  - destruct (Command_undo c w) as [o w'] eqn:E.
    exact (undo_touches_only c w o w' E).
Qed.

(** ** The two wrappers *)

Lemma set_system_log_same w : set_system_log (system_log w) w = w.
Proof. now destruct w. Qed.

Create HintDb relog_frame.

(** Goals [commutes (relog p) m]: follow the shape of [m]. *)
Ltac relogging :=
  repeat first
    [ apply commutes_ret
    | apply commutes_throw
    | apply commutes_gets; intros; reflexivity
    | apply commutes_modify; intros; reflexivity
    | apply commutes_forEach; intros
    | apply commutes_bind; [|intros]
    | match goal with
      | |- commutes _ (match ?x with _ => _ end) => destruct x
      end
    | solve [eauto with relog_frame] ].

Section Relog.

Variable p : list string.

Lemma deref_relog a : commutes (relog p) (deref a).
Proof. intros w. unfold deref. simpl. now destruct (heap w !! a). Qed.

Lemma systemLog_relog m : commutes (relog p) (House_systemLog m).
Proof.
  intros w. unfold House_systemLog, modify, relog. simpl.
  now rewrite app_assoc.
Qed.

Hint Resolve deref_relog systemLog_relog : relog_frame.

Lemma assign_relog a f : commutes (relog p) (assign a f).
Proof. unfold assign. relogging. Qed.

Hint Resolve assign_relog : relog_frame.

Lemma update_relog h a : commutes (relog p) (HeatingSystem_update h a).
Proof.
  unfold HeatingSystem_update, HeatingSystem_setStrategy, HeatingSystem_heat.
  relogging.
Qed.

Hint Resolve update_relog : relog_frame.

Lemma notifyObservers_relog a : commutes (relog p) (Device_notifyObservers a).
Proof. unfold Device_notifyObservers, call_update. relogging. Qed.

Hint Resolve notifyObservers_relog : relog_frame.

Lemma call_relog t a : commutes (relog p) (call t a).
Proof.
  destruct t; unfold call, turnOn, turnOff, lock, unlock, setTemperature,
    Light_turnOn, Light_turnOff, Door_lock, Door_unlock,
    TemperatureSensor_setTemperature, DeviceAdapter_turnOn,
    DeviceAdapter_turnOff;
    relogging.
Qed.

Lemma findDevice_relog nm : commutes (relog p) (House_findDevice nm).
Proof. intros w. reflexivity. Qed.

Hint Resolve findDevice_relog : relog_frame.

Lemma refuses_relog c : commutes (relog p) (SecurityProxy_refuses c).
Proof. unfold SecurityProxy_refuses. destruct c; simpl; relogging. Qed.

Hint Resolve refuses_relog : relog_frame.

Lemma execute_relog c : commutes (relog p) (Command_execute c).
Proof.
  induction c; simpl.
  - apply (call_relog TurnOn).
  - apply (call_relog TurnOff).
  - apply (call_relog Lock).
  - apply (call_relog Unlock).
  - relogging.
  - relogging.
Qed.

End Relog.

(** The lines a command adds are added at the end of the system log, and
    running the command after more lines were logged gives the same
    outcome with the same lines added. *)
Lemma execute_appends c w :
  exists delta,
    system_log (snd (Command_execute c w)) = system_log w ++ delta /\
    forall l,
      Command_execute c (set_system_log l w) =
        (fst (Command_execute c w),
         set_system_log (l ++ delta) (snd (Command_execute c w))).
Proof.
  set (w0 := set_system_log [] w).
  assert (Hw : forall l, set_system_log l w = relog l w0)
    by (intros l; unfold relog, w0; simpl; now rewrite app_nil_r).
  destruct (Command_execute c w0) as [o w0'] eqn:E0.
  assert (Hl : forall l, Command_execute c (set_system_log l w) =
                         (o, relog l w0'))
    by (intros l; rewrite Hw; apply (commutes_run _ _ _ _ _
                                       (execute_relog l c) E0)).
  assert (Ew : Command_execute c w = (o, relog (system_log w) w0'))
    by (rewrite <- (set_system_log_same w) at 1; apply Hl).
  exists (system_log w0'). rewrite Ew. split; [reflexivity|].
  intros l. now rewrite Hl.
Qed.

(** X7.  [LogCommand] only logs: [execute()] has the outcome of the
    wrapped command's [execute()] and leaves the world that command
    leaves, with its lines in the system log put between two more: the
    class name of the wrapped command before, and the result after, the
    latter missing when the wrapped command throws. *)
Theorem log_command_only_logs c w :
  exists delta,
    system_log (snd (Command_execute c w)) = system_log w ++ delta /\
    Command_execute (LogCommand c) w =
      match Command_execute c w with
      | (Ret r, w') =>
          (Ret r,
           set_system_log
             (system_log w ++
                ["Executing command: " +:+ constructor_name c] ++ delta ++
                ["Command result: " +:+ r])
             w')
      | (Throw e, w') =>
          (Throw e,
           set_system_log
             (system_log w ++
                ["Executing command: " +:+ constructor_name c] ++ delta)
             w')
      end.
Proof.
  destruct (execute_appends c w) as (delta & Hd & Hl).
  exists delta. split; [exact Hd|].
  change (Command_execute (LogCommand c))
    with (House_systemLog ("Executing command: " +:+ constructor_name c) ;;
          let! result := Command_execute c in
          House_systemLog ("Command result: " +:+ result) ;;
          ret result).
  unfold bind at 1, House_systemLog at 1, modify at 1.
  unfold bind at 1. rewrite Hl.
  destruct (Command_execute c w) as [[r|e] w']; simpl.
  - unfold bind, House_systemLog, modify, ret. simpl.
    now rewrite <- !app_assoc.
  - now rewrite <- !app_assoc.
Qed.

(** X8.  [SecurityProxy] guards a [LightOffCommand] that it wraps
    directly and nothing else: around any other command, a
    [LightOffCommand] inside a [LogCommand] included, [execute()] is the
    wrapped command's [execute()], whatever the front door. *)
Theorem proxy_guards_only_a_bare_light_off c w :
  instanceof_LightOffCommand c = false ->
  Command_execute (SecurityProxy c) w = Command_execute c w.
Proof.
  intros Hc.
  change (Command_execute (SecurityProxy c))
    with (let! refused := SecurityProxy_refuses c in
          if (refused : bool) then ret security_warning
          else Command_execute c).
  unfold bind, SecurityProxy_refuses. now rewrite Hc.
Qed.

Lemma proxy_guards_only_a_bare_light_off_witness :
  Command_execute
    (SecurityProxy (LogCommand (LightOffCommand App.livingRoomLight)))
    at_home_world =
  Command_execute (LogCommand (LightOffCommand App.livingRoomLight))
    at_home_world.
Proof.
  apply (proxy_guards_only_a_bare_light_off
           (LogCommand (LightOffCommand App.livingRoomLight)) at_home_world).
  reflexivity.
Defined.

(** ** Direct messages *)

Lemma find_some_of_Exists (to : string) (registered : list User) :
  Exists (fun user => user_name user = to) registered ->
  exists recipient,
    List.find (fun user => bool_decide (user_name user = to)) registered =
      Some recipient /\
    user_name recipient = to.
Proof.
  induction registered as [|u us IH]; intros H.
  - now apply Exists_nil in H.
  - simpl. destruct (bool_decide_reflect (user_name u = to)) as [Hu|Hu].
    + now exists u.
    + apply Exists_cons in H as [H|H]; [contradiction | now apply IH].
Qed.

Lemma direct_run from to message registered w :
  to <> "all" ->
  chat_users w = registered ->
  Exists (fun user => user_name user = to) registered ->
  HouseChatRoom_sendMessage from to message w =
    (Ret tt,
     set_chat_log (chat_log w ++ the_two_lines (user_name from) message to) w).
Proof.
  intros Hall <- Hex.
  destruct (find_some_of_Exists to _ Hex) as (r & Hfind & Hr).
  unfold HouseChatRoom_sendMessage, bind at 1, gets.
  rewrite bool_decide_eq_false_2 by exact Hall. rewrite Hfind.
  unfold User_receiveMessage, HouseChatRoom_displayMessage, House_chatLog,
    bind, modify, the_two_lines. simpl.
  now rewrite Hr, <- app_assoc.
Qed.

(** X9.  A message sent to the name of a registered user (a name other
    than ['all']) puts the same line in the chat log twice, once for the
    delivery and once for the record, and changes nothing else; this is so
    however many users have that name, and also when the sender writes
    to himself. *)
Theorem direct_message_is_logged_twice from to message w :
  to <> "all" ->
  Exists (fun user => user_name user = to) (chat_users w) ->
  HouseChatRoom_sendMessage from to message w =
    (Ret tt,
     set_chat_log
       (chat_log w ++
          [chat_line (user_name from) message to;
           chat_line (user_name from) message to]) w).
Proof.
  intros Hall Hex.
  exact (direct_run from to message (chat_users w) w Hall eq_refl Hex).
Qed.

Lemma direct_message_is_logged_twice_witness :
  HouseChatRoom_sendMessage App.mary "John" "The house is getting cold!"
    App.app_world =
    (Ret tt,
     set_chat_log
       (chat_log App.app_world ++
          [chat_line "Mary" "The house is getting cold!" "John";
           chat_line "Mary" "The house is getting cold!" "John"])
       App.app_world).
Proof.
  apply (direct_message_is_logged_twice App.mary "John"
           "The house is getting cold!" App.app_world).
  - discriminate.
  - vm_compute. constructor. reflexivity.
Defined.

(** X10.  [House.addUser] registers the user in the chat room as well:
    once it has run, a message to the user's name is delivered, and a
    broadcast of anybody with another name reaches the user. *)
Theorem added_user_can_be_reached u from message w :
  user_name u <> "all" ->
  exists w1,
    House_addUser u w = (Ret tt, w1) /\
    users w1 = users w ++ [u] /\
    chat_users w1 = chat_users w ++ [u] /\
    HouseChatRoom_sendMessage from (user_name u) message w1 =
      (Ret tt,
       set_chat_log
         (chat_log w1 ++
            the_two_lines (user_name from) message (user_name u)) w1) /\
    (user_name from <> user_name u ->
     In u (recipients from (chat_users w1))).
Proof.
  intros Hall. eexists. split; [reflexivity|].
  split; [reflexivity|]. split; [reflexivity|]. split.
  - apply (direct_run from (user_name u) message (chat_users w ++ [u]));
      [exact Hall | reflexivity |].
    apply Exists_app. right. now constructor.
  - intros Hne. unfold recipients. apply filter_In. split.
    + simpl. apply in_or_app. right. now left.
    + apply negb_true_iff, bool_decide_eq_false. congruence.
Qed.

Lemma added_user_can_be_reached_witness :
  exists w1,
    House_addUser (mkUser "Paul") App.app_world = (Ret tt, w1) /\
    users w1 = users App.app_world ++ [mkUser "Paul"] /\
    chat_users w1 = chat_users App.app_world ++ [mkUser "Paul"] /\
    HouseChatRoom_sendMessage App.john "Paul" "hi" w1 =
      (Ret tt,
       set_chat_log (chat_log w1 ++ the_two_lines "John" "hi" "Paul") w1) /\
    ("John" <> "Paul" ->
     In (mkUser "Paul") (recipients App.john (chat_users w1))).
Proof.
  apply (added_user_can_be_reached (mkUser "Paul") App.john "hi"
           App.app_world).
  discriminate.
Defined.

(** ** Adding to the registry, then looking up *)

Lemma find_device_app h nm l1 l2 :
  find_device h nm (l1 ++ l2) =
    match find_device h nm l1 with
    | Ret None => find_device h nm l2
    | r => r
    end.
Proof.
  induction l1 as [|a l1 IH]; simpl; [reflexivity|].
  destruct (h !! a) as [d|]; [|reflexivity].
  destruct (bool_decide (name (base d) = nm)); [reflexivity | exact IH].
Qed.

Lemma find_user_app nm (l1 l2 : list User) :
  List.find (fun user => bool_decide (user_name user = nm)) (l1 ++ l2) =
    match List.find (fun user => bool_decide (user_name user = nm)) l1 with
    | Some u => Some u
    | None => List.find (fun user => bool_decide (user_name user = nm)) l2
    end.
Proof.
  induction l1 as [|a l1 IH]; simpl; [reflexivity|].
  destruct (bool_decide (user_name a = nm)); [reflexivity | exact IH].
Qed.

(** X11.  A device or user that is added never hides an older one: after
    [addDevice(device)], [findDevice(name)] gives what it gave before when
    that was a device (or an exception), and otherwise the new device if
    it has the name; the same for [addUser] and [findUser]. *)
Theorem added_entry_never_shadows a d u nm nm' w :
  heap w !! a = Some d ->
  fst (House_findDevice nm (snd (House_addDevice a w))) =
    match fst (House_findDevice nm w) with
    | Ret None => if bool_decide (name (base d) = nm) then Ret (Some a)
                  else Ret None
    | found => found
    end /\
  fst (House_findUser nm' (snd (House_addUser u w))) =
    match fst (House_findUser nm' w) with
    | Ret None => if bool_decide (user_name u = nm') then Ret (Some u)
                  else Ret None
    | found => found
    end.
Proof.
  intros Ha. split.
  - unfold House_findDevice, House_addDevice, modify. simpl.
    rewrite find_device_app. simpl. rewrite Ha.
    destruct (find_device (heap w) nm (devices w)) as [[b|]|e];
      reflexivity.
  - unfold House_findUser, House_addUser, HouseChatRoom_addUser, bind, modify.
    simpl. rewrite find_user_app. simpl.
    destruct (List.find _ (users w)); [reflexivity|].
    now destruct (bool_decide (user_name u = nm')).
Qed.

Lemma added_entry_never_shadows_witness :
  fst (House_findDevice "Front Door"
         (snd (House_addDevice App.livingRoomLight App.app_world))) =
    Ret (Some App.frontDoor) /\
  fst (House_findUser "John"
         (snd (House_addUser (mkUser "John") App.app_world))) =
    Ret (Some App.john).
Proof.
  apply (added_entry_never_shadows App.livingRoomLight
           (App.new_Light "Living Room Light") (mkUser "John")
           "Front Door" "John" App.app_world).
  vm_compute. reflexivity.
Defined.

(** ** A registry without dangling references *)

Lemma find_device_ok h nm l :
  Forall (fun a => is_Some (h !! a)) l ->
  exists r,
    find_device h nm l = Ret r /\
    (r = None <-> Some nm ∉ names_of h l).
Proof.
  induction 1 as [|a l [d Ha] _ (r & E & Hr)]; simpl.
  - exists None. split; [reflexivity|]. split; [|reflexivity].
    intros _. apply not_elem_of_nil.
  - rewrite Ha. simpl.
    destruct (bool_decide_reflect (name (base d) = nm)) as [Hn|Hn].
    + exists (Some a). split; [reflexivity|]. split; [discriminate|].
      intros Hnot. exfalso. apply Hnot. rewrite Hn. apply elem_of_cons. now left.
    + exists r. split; [exact E|]. rewrite Hr. split.
      * intros Hnot [Heq|Hin]%elem_of_cons; [congruence | contradiction].
      * intros Hnot Hin. apply Hnot. apply elem_of_cons. now right.
Qed.

Lemma touches_only_registry_ok a w w' :
  touches_only a w w' -> registry_ok w -> registry_ok w'.
Proof.
  intros (_ & Hn & _ & _ & Hd & _) Hok. unfold registry_ok in *.
  rewrite Hd. eapply Forall_impl; [exact Hok|].
  intros b [d Hb]. specialize (Hn b). rewrite Hb in Hn.
  destruct (heap w' !! b); [eauto | discriminate].
Qed.

(** X12.  In a house whose [devices] array holds devices only,
    [findDevice] does not throw, and it returns [undefined] exactly when
    no device of the array has the name.  The house stays such under
    [addDevice] of a device and under [execute()] and [undo()] of any
    command. *)
Theorem registry_lookup_is_total w :
  registry_ok w ->
  (forall nm,
     exists r,
       House_findDevice nm w = (Ret r, w) /\
       (r = None <-> Some nm ∉ device_names w)) /\
  (forall a, is_Some (heap w !! a) -> registry_ok (snd (House_addDevice a w))) /\
  (forall c, registry_ok (snd (Command_execute c w))) /\
  (forall c, registry_ok (snd (Command_undo c w))).
Proof.
  intros Hok. split; [|split; [|split]].
  - intros nm. destruct (find_device_ok (heap w) nm (devices w) Hok)
      as (r & E & Hr).
    exists r. unfold House_findDevice. now rewrite E.
  - intros a Ha. unfold registry_ok. simpl. apply Forall_app. split.
    + exact Hok.
    + now constructor.
  - intros c. destruct (Command_execute c w) as [o w'] eqn:E.
    exact (touches_only_registry_ok _ _ _ (execute_touches_only c w o w' E) Hok).
  - intros c. destruct (Command_undo c w) as [o w'] eqn:E.
    exact (touches_only_registry_ok _ _ _ (undo_touches_only c w o w' E) Hok).
Qed.

Lemma app_registry_ok : registry_ok App.app_world.
Proof.
  unfold registry_ok. vm_compute.
  repeat constructor; eexists; reflexivity.
Qed.

Lemma registry_lookup_is_total_witness :
  exists r,
    House_findDevice "Garage" App.app_world = (Ret r, App.app_world) /\
    (r = None <-> Some "Garage" ∉ device_names App.app_world).
Proof.
  exact (proj1 (registry_lookup_is_total App.app_world app_registry_ok)
           "Garage").
Defined.

(** ** Remote controls *)

Lemma history_other this other h w :
  this <> other -> history other (with_history this h w) = history other w.
Proof.
  intros Hne. unfold history, with_history. simpl.
  now rewrite lookup_insert_ne.
Qed.

Lemma history_remotes other w w' :
  remotes w' = remotes w -> history other w' = history other w.
Proof. unfold history. now intros ->. Qed.

Lemma pressButton_history this c w :
  exists w1,
    Command_execute c w = (fst (Command_execute c w), w1) /\
    remotes w1 = remotes w /\
    snd (RemoteControl_pressButton this c w) =
      match fst (Command_execute c w) with
      | Ret _ => with_history this (history this w ++ [c]) w1
      | Throw _ => w1
      end.
Proof.
  destruct (Command_execute c w) as [[s|e] w1] eqn:E; exists w1; simpl.
  - split; [reflexivity|].
    split; [exact (remotes_kept _ w _ w1 (fun r => execute_commutes r c) E)|].
    now rewrite (pressButton_run this c w s w1 E).
  - split; [reflexivity|].
    split; [exact (remotes_kept _ w _ w1 (fun r => execute_commutes r c) E)|].
    now rewrite (pressButton_throw this c w e w1 E).
Qed.

Lemma undo_history this w :
  history this (snd (RemoteControl_undo this w)) =
    removelast (history this w) /\
  forall other,
    this <> other ->
    history other (snd (RemoteControl_undo this w)) = history other w.
Proof.
  destruct (history this w) as [|c0 h0] eqn:Hh.
  - rewrite (undo_run_empty this w Hh). simpl. now split.
  - assert (Hne : c0 :: h0 <> []) by discriminate.
    destruct (exists_last Hne) as (h & c & Ehc).
    rewrite Ehc in Hh. rewrite Ehc.
    rewrite (undo_run_last this h c w Hh), removelast_last.
    destruct (Command_undo c (with_history this h w)) as [o w1] eqn:E.
    pose proof (remotes_kept _ _ _ w1 (fun r => undo_commutes r c) E) as Hr.
    simpl. split.
    + rewrite (history_remotes this _ _ Hr). apply history_with_history.
    + intros other Hother. rewrite (history_remotes other _ _ Hr).
      now apply history_other.
Qed.

(** X13.  Remote controls do not share their histories: [pressButton]
    and [undo] on one leave the history of every other as it was.  And
    [undo()] on a remote always takes the last command off its history,
    also when that command's [undo()] throws: the pop is not taken
    back. *)
Theorem remote_controls_are_independent this other c w :
  this <> other ->
  history other (snd (RemoteControl_pressButton this c w)) = history other w /\
  history other (snd (RemoteControl_undo this w)) = history other w /\
  history this (snd (RemoteControl_undo this w)) =
    removelast (history this w).
Proof.
  intros Hne. destruct (undo_history this w) as (Hpop & Hothers).
  split; [|split; [now apply Hothers | exact Hpop]].
  destruct (pressButton_history this c w) as (w1 & _ & Hr & ->).
  destruct (fst (Command_execute c w)).
  - rewrite (history_other this other _ w1 Hne).
    now apply history_remotes.
  - now apply history_remotes.
Qed.

Lemma remote_controls_are_independent_witness :
  history 8 (snd (RemoteControl_pressButton 7
                    (LightOnCommand App.livingRoomLight) refused_world)) =
    history 8 refused_world /\
  history 8 (snd (RemoteControl_undo 7 refused_world)) =
    history 8 refused_world /\
  history 7 (snd (RemoteControl_undo 7 refused_world)) =
    removelast (history 7 refused_world).
Proof.
  apply (remote_controls_are_independent 7 8
           (LightOnCommand App.livingRoomLight) refused_world).
  discriminate.
Defined.

(** ** The facade *)

Lemma log_execute c w :
  exists l,
    Command_execute (LogCommand c) w =
      (fst (Command_execute c w),
       set_system_log l (snd (Command_execute c w))).
Proof.
  destruct (execute_appends c w) as (delta & _ & Hl).
  change (Command_execute (LogCommand c))
    with (House_systemLog ("Executing command: " +:+ constructor_name c) ;;
          let! result := Command_execute c in
          House_systemLog ("Command result: " +:+ result) ;;
          ret result).
  unfold bind at 1, House_systemLog at 1, modify at 1.
  unfold bind at 1. rewrite Hl.
  destruct (Command_execute c w) as [[r|e] w']; simpl.
  - eexists. unfold bind, House_systemLog, modify, ret. simpl. reflexivity.
  - eexists. reflexivity.
Qed.

(** [pressButton] of a logged command, from the run of the command. *)
Lemma press_logged remote c w r w1 :
  Command_execute c w = (Ret r, w1) ->
  exists w2,
    RemoteControl_pressButton remote (LogCommand c) w = (Ret r, w2) /\
    same_house w1 w2 /\
    history remote w2 = history remote w ++ [LogCommand c].
Proof.
  intros E. destruct (log_execute c w) as (l & El).
  rewrite E in El. cbn [fst snd] in El.
  eexists. split; [apply (pressButton_run remote (LogCommand c) w r _ El)|].
  split.
  - unfold same_house. simpl. tauto.
  - apply history_with_history.
Qed.

Lemma find_device_same_names h h' nm l :
  (forall b, name ∘ base <$> h' !! b = name ∘ base <$> h !! b) ->
  find_device h' nm l = find_device h nm l.
Proof.
  intros Hn. induction l as [|a l IH]; simpl; [reflexivity|].
  specialize (Hn a).
  destruct (h !! a) as [d|], (h' !! a) as [d'|]; simpl in Hn;
    try discriminate; [|reflexivity].
  injection Hn as ->. now rewrite IH.
Qed.

Lemma names_insert (h : gmap nat Device) a d d' :
  h !! a = Some d -> name (base d') = name (base d) ->
  forall b, name ∘ base <$> <[a := d']> h !! b = name ∘ base <$> h !! b.
Proof.
  intros Ha Hn b. destruct (decide (a = b)) as [<-|Hne].
  - rewrite lookup_insert_eq, Ha. simpl. now rewrite Hn.
  - now rewrite lookup_insert_ne.
Qed.

(** A switch, with what it leaves alone. *)
Lemma switch_frame t a d w :
  is_switch t = true ->
  heap w !! a = Some d -> has_method t d = true ->
  exists w',
    call t a w = (Ret (confirmation t d), w') /\
    heap w' = <[a := mutation t d]> (heap w) /\
    heaters w' = heaters w /\
    devices w' = devices w /\ users w' = users w /\
    chat_users w' = chat_users w /\ chat_log w' = chat_log w.
Proof.
  intros Hs Ha Hm. eexists. split; [apply (switch_run t a d w Hs Ha Hm)|].
  simpl. tauto.
Qed.

(** The proxy around a turn-off-light command, by the lock of the front
    door. *)
Lemma proxy_light_off_run l dl f bf locked w :
  heap w !! l = Some dl -> has_method TurnOff dl = true ->
  find_device (heap w) "Front Door" (devices w) = Ret (Some f) ->
  heap w !! f = Some (Door bf locked) ->
  exists w1,
    Command_execute (SecurityProxy (LightOffCommand l)) w =
      (Ret (if locked then confirmation TurnOff dl else security_warning),
       w1) /\
    heap w1 = (if locked then <[l := set_isOn false dl]> (heap w)
               else heap w) /\
    heaters w1 = heaters w /\
    devices w1 = devices w /\ users w1 = users w /\
    chat_users w1 = chat_users w /\ chat_log w1 = chat_log w.
Proof.
  intros Hl Hm Hf Hd.
  change (Command_execute (SecurityProxy (LightOffCommand l)))
    with (let! refused := SecurityProxy_refuses (LightOffCommand l) in
          if (refused : bool) then ret security_warning
          else Command_execute (LightOffCommand l)).
  unfold bind. rewrite SecurityProxy_refuses_run, Hf, Hd. simpl.
  destruct locked; simpl.
  - destruct (switch_frame TurnOff l dl w eq_refl Hl Hm) as (w1 & E & R).
    exists w1. unfold call in E. rewrite E. tauto.
  - exists w. tauto.
Qed.

Lemma leaveHome_run remote l dl f bf locked w :
  find_device (heap w) "Living Room Light" (devices w) = Ret (Some l) ->
  heap w !! l = Some dl -> has_method TurnOff dl = true ->
  find_device (heap w) "Front Door" (devices w) = Ret (Some f) ->
  heap w !! f = Some (Door bf locked) ->
  exists w',
    SmartHomeFacade_leaveHome remote w =
      (Ret [if locked then confirmation TurnOff dl else security_warning;
            "Door " +:+ name bf +:+ " locked"], w') /\
    heap w' =
      <[f := Door bf true]>
        (if locked then <[l := set_isOn false dl]> (heap w) else heap w) /\
    heaters w' = heaters w /\
    devices w' = devices w /\ users w' = users w /\
    chat_users w' = chat_users w /\ chat_log w' = chat_log w /\
    history remote w' =
      history remote w ++
        [LogCommand (SecurityProxy (LightOffCommand l));
         LogCommand (DoorLockCommand f)].
Proof.
  intros Hl Hdl Hml Hf Hdf.
  assert (Hlf : l <> f).
  { intros ->. rewrite Hdf in Hdl. injection Hdl as <-. discriminate. }
  (* the light *)
  destruct (proxy_light_off_run l dl f bf locked w Hdl Hml Hf Hdf)
    as (wA & EA & HhA & HtA & HdA & HuA & HcA & HclA).
  destruct (press_logged remote _ w _ wA EA) as (w1 & E1 & S1 & H1).
  destruct S1 as (Hh1 & Ht1 & Hd1 & Hu1 & Hc1 & Hcl1 & _).
  (* the door, in the world so reached *)
  assert (Hnames : forall b, name ∘ base <$> heap w1 !! b =
                             name ∘ base <$> heap w !! b).
  { rewrite Hh1, HhA. destruct locked; [|reflexivity].
    apply (names_insert _ l dl); [exact Hdl | now destruct dl]. }
  assert (Hf1 : find_device (heap w1) "Front Door" (devices w1) =
                Ret (Some f)).
  { rewrite Hd1, HdA, <- Hf. now apply find_device_same_names. }
  assert (Hdf1 : heap w1 !! f = Some (Door bf locked)).
  { rewrite Hh1, HhA. destruct locked; [|exact Hdf].
    now rewrite lookup_insert_ne. }
  destruct (switch_frame Lock f _ w1 eq_refl Hdf1 eq_refl)
    as (wB & EB & HhB & HtB & HdB & HuB & HcB & HclB).
  destruct (press_logged remote (DoorLockCommand f) w1 _ wB EB)
    as (w2 & E2 & S2 & H2).
  destruct S2 as (Hh2 & Ht2 & Hd2 & Hu2 & Hc2 & Hcl2 & _).
  (* the scenario *)
  eexists. split.
  - unfold SmartHomeFacade_leaveHome.
    unfold bind at 1, House_findDevice at 1. rewrite Hl.
    unfold bind at 1. rewrite (bind_Ret _ _ _ _ _ E1). unfold ret at 1.
    unfold bind at 1, House_findDevice at 1. rewrite Hf1.
    unfold bind at 1. rewrite (bind_Ret _ _ _ _ _ E2). unfold ret at 1.
    unfold bind, House_systemLog, modify, ret. simpl. reflexivity.
  - simpl. rewrite Hh2, HhB, Hh1, HhA, Ht2, HtB, Ht1, HtA,
      Hd2, HdB, Hd1, HdA, Hu2, HuB, Hu1, HuA,
      Hc2, HcB, Hc1, HcA, Hcl2, HclB, Hcl1, HclA.
    repeat split.
    unfold history in *. simpl. unfold history in H2. rewrite H2, H1.
    now rewrite <- app_assoc.
Qed.

Lemma arriveHome_run remote l dl f bf locked w :
  find_device (heap w) "Front Door" (devices w) = Ret (Some f) ->
  heap w !! f = Some (Door bf locked) ->
  find_device (heap w) "Living Room Light" (devices w) = Ret (Some l) ->
  heap w !! l = Some dl -> has_method TurnOn dl = true ->
  exists w',
    SmartHomeFacade_arriveHome remote w =
      (Ret ["Door " +:+ name bf +:+ " unlocked"; confirmation TurnOn dl],
       w') /\
    heap w' = <[l := set_isOn true dl]> (<[f := Door bf false]> (heap w)) /\
    heaters w' = heaters w /\
    devices w' = devices w /\ users w' = users w /\
    chat_users w' = chat_users w /\ chat_log w' = chat_log w /\
    history remote w' =
      history remote w ++
        [LogCommand (DoorUnlockCommand f); LogCommand (LightOnCommand l)].
Proof.
  intros Hf Hdf Hl Hdl Hml.
  assert (Hlf : f <> l).
  { intros ->. rewrite Hdf in Hdl. injection Hdl as <-. discriminate. }
  (* the door *)
  destruct (switch_frame Unlock f _ w eq_refl Hdf eq_refl)
    as (wA & EA & HhA & HtA & HdA & HuA & HcA & HclA).
  destruct (press_logged remote (DoorUnlockCommand f) w _ wA EA)
    as (w1 & E1 & S1 & H1).
  destruct S1 as (Hh1 & Ht1 & Hd1 & Hu1 & Hc1 & Hcl1 & _).
  (* the light, in the world so reached *)
  assert (Hnames : forall b, name ∘ base <$> heap w1 !! b =
                             name ∘ base <$> heap w !! b).
  { rewrite Hh1, HhA. now apply (names_insert _ f (Door bf locked)). }
  assert (Hl1 : find_device (heap w1) "Living Room Light" (devices w1) =
                Ret (Some l)).
  { rewrite Hd1, HdA, <- Hl. now apply find_device_same_names. }
  assert (Hdl1 : heap w1 !! l = Some dl).
  { rewrite Hh1, HhA. now rewrite lookup_insert_ne. }
  destruct (switch_frame TurnOn l _ w1 eq_refl Hdl1 Hml)
    as (wB & EB & HhB & HtB & HdB & HuB & HcB & HclB).
  destruct (press_logged remote (LightOnCommand l) w1 _ wB EB)
    as (w2 & E2 & S2 & H2).
  destruct S2 as (Hh2 & Ht2 & Hd2 & Hu2 & Hc2 & Hcl2 & _).
  (* the scenario *)
  eexists. split.
  - unfold SmartHomeFacade_arriveHome.
    unfold bind at 1, House_findDevice at 1. rewrite Hf.
    unfold bind at 1. rewrite (bind_Ret _ _ _ _ _ E1). unfold ret at 1.
    unfold bind at 1, House_findDevice at 1. rewrite Hl1.
    unfold bind at 1. rewrite (bind_Ret _ _ _ _ _ E2). unfold ret at 1.
    unfold bind, House_systemLog, modify, ret. simpl. reflexivity.
  - simpl. rewrite Hh2, HhB, Hh1, HhA, Ht2, HtB, Ht1, HtA,
      Hd2, HdB, Hd1, HdA, Hu2, HuB, Hu1, HuA,
      Hc2, HcB, Hc1, HcA, Hcl2, HclB, Hcl1, HclA.
    repeat split.
    unfold history in *. simpl. unfold history in H2. rewrite H2, H1.
    now rewrite <- app_assoc.
Qed.

(** X14.  [leaveHome()] in a house where 'Living Room Light' is a light
    and 'Front Door' a door: it returns two results and leaves the door
    locked.  The light is dealt with first, before the door is locked: it
    is turned off when the door was locked already, and otherwise the
    first result is the warning and the light is as it was.  Both
    commands are recorded, wrapped, in the remote's history. *)
Theorem leaveHome_locks_the_door remote l dl f bf locked w :
  find_device (heap w) "Living Room Light" (devices w) = Ret (Some l) ->
  heap w !! l = Some dl -> has_method TurnOff dl = true ->
  find_device (heap w) "Front Door" (devices w) = Ret (Some f) ->
  heap w !! f = Some (Door bf locked) ->
  exists w',
    SmartHomeFacade_leaveHome remote w =
      (Ret [if locked then confirmation TurnOff dl else security_warning;
            "Door " +:+ name bf +:+ " locked"], w') /\
    heap w' !! f = Some (Door bf true) /\
    heap w' !! l = Some (if locked then set_isOn false dl else dl) /\
    (forall b, b <> f -> b <> l -> heap w' !! b = heap w !! b) /\
    history remote w' =
      history remote w ++
        [LogCommand (SecurityProxy (LightOffCommand l));
         LogCommand (DoorLockCommand f)].
Proof.
  intros Hl Hdl Hml Hf Hdf.
  assert (Hlf : f <> l).
  { intros ->. rewrite Hdf in Hdl. injection Hdl as <-. discriminate. }
  destruct (leaveHome_run remote l dl f bf locked w Hl Hdl Hml Hf Hdf)
    as (w' & E & Hh & _ & _ & _ & _ & _ & Hhist).
  exists w'. split; [exact E|]. rewrite Hh.
  split; [apply lookup_insert_eq|]. split; [|split; [|exact Hhist]].
  - rewrite lookup_insert_ne by exact Hlf.
    destruct locked; [apply lookup_insert_eq | exact Hdl].
  - intros b Hbf Hbl. rewrite lookup_insert_ne by congruence.
    destruct locked; [now rewrite lookup_insert_ne|reflexivity].
Qed.

Lemma leaveHome_locks_the_door_witness :
  exists w',
    SmartHomeFacade_leaveHome 7 at_home_world =
      (Ret [security_warning; "Door Front Door locked"], w') /\
    heap w' !! App.frontDoor = Some (Door (mkBase "Front Door" false []) true) /\
    heap w' !! App.livingRoomLight =
      Some (Light (mkBase "Living Room Light" true [])) /\
    (forall b, b <> App.frontDoor -> b <> App.livingRoomLight ->
               heap w' !! b = heap at_home_world !! b) /\
    history 7 w' =
      history 7 at_home_world ++
        [LogCommand (SecurityProxy (LightOffCommand App.livingRoomLight));
         LogCommand (DoorLockCommand App.frontDoor)].
Proof.
  apply (leaveHome_locks_the_door 7 App.livingRoomLight
           (Light (mkBase "Living Room Light" true []))
           App.frontDoor (mkBase "Front Door" false []) false at_home_world);
    vm_compute; reflexivity.
Defined.

(** X15.  [arriveHome()] in a house where 'Front Door' is a door and
    'Living Room Light' a light: it returns the two confirmations, door
    first, and leaves the door unlocked and the light on, whatever they
    were; no other device changes, and both commands are recorded,
    wrapped, in the remote's history. *)
Theorem arriveHome_unlocks_and_lights remote l dl f bf locked w :
  find_device (heap w) "Front Door" (devices w) = Ret (Some f) ->
  heap w !! f = Some (Door bf locked) ->
  find_device (heap w) "Living Room Light" (devices w) = Ret (Some l) ->
  heap w !! l = Some dl -> has_method TurnOn dl = true ->
  exists w',
    SmartHomeFacade_arriveHome remote w =
      (Ret ["Door " +:+ name bf +:+ " unlocked"; confirmation TurnOn dl],
       w') /\
    heap w' !! f = Some (Door bf false) /\
    heap w' !! l = Some (set_isOn true dl) /\
    (forall b, b <> f -> b <> l -> heap w' !! b = heap w !! b) /\
    history remote w' =
      history remote w ++
        [LogCommand (DoorUnlockCommand f); LogCommand (LightOnCommand l)].
Proof.
  intros Hf Hdf Hl Hdl Hml.
  assert (Hlf : l <> f).
  { intros ->. rewrite Hdf in Hdl. injection Hdl as <-. discriminate. }
  destruct (arriveHome_run remote l dl f bf locked w Hf Hdf Hl Hdl Hml)
    as (w' & E & Hh & _ & _ & _ & _ & _ & Hhist).
  exists w'. split; [exact E|]. rewrite Hh.
  split; [|split; [apply lookup_insert_eq | split; [|exact Hhist]]].
  - rewrite lookup_insert_ne by exact Hlf. apply lookup_insert_eq.
  - intros b Hbf Hbl. now rewrite !lookup_insert_ne by congruence.
Qed.

Lemma arriveHome_unlocks_and_lights_witness :
  exists w',
    SmartHomeFacade_arriveHome 7 App.app_world =
      (Ret ["Door Front Door unlocked"; "Light Living Room Light turned on"],
       w') /\
    heap w' !! App.frontDoor =
      Some (Door (mkBase "Front Door" false []) false) /\
    heap w' !! App.livingRoomLight =
      Some (Light (mkBase "Living Room Light" true [])) /\
    (forall b, b <> App.frontDoor -> b <> App.livingRoomLight ->
               heap w' !! b = heap App.app_world !! b) /\
    history 7 w' =
      history 7 App.app_world ++
        [LogCommand (DoorUnlockCommand App.frontDoor);
         LogCommand (LightOnCommand App.livingRoomLight)].
Proof.
  apply (arriveHome_unlocks_and_lights 7 App.livingRoomLight
           (App.new_Light "Living Room Light")
           App.frontDoor (mkBase "Front Door" false []) true App.app_world);
    vm_compute; reflexivity.
Defined.



(** X17.  In a house whose [devices] array holds devices only and none
    of them is named 'Living Room Light' or 'Front Door', [leaveHome()]
    and [arriveHome()] skip both steps: they return the empty array and
    only log that the mode is activated. *)
Theorem facade_skips_missing_devices remote w :
  registry_ok w ->
  Some "Living Room Light" ∉ device_names w ->
  Some "Front Door" ∉ device_names w ->
  SmartHomeFacade_leaveHome remote w =
    (Ret [], set_system_log (system_log w ++ ["Left home mode activated"]) w)
  /\
  SmartHomeFacade_arriveHome remote w =
    (Ret [],
     set_system_log (system_log w ++ ["Arrived home mode activated"]) w).
Proof.
  intros Hok Hl Hf.
  destruct (find_device_ok (heap w) "Living Room Light" (devices w) Hok)
    as (rl & El & Hrl).
  destruct (find_device_ok (heap w) "Front Door" (devices w) Hok)
    as (rf & Ef & Hrf).
  apply Hrl in Hl. apply Hrf in Hf. subst rl rf.
  unfold SmartHomeFacade_leaveHome, SmartHomeFacade_arriveHome, bind,
    House_findDevice, House_systemLog, modify, ret.
  rewrite El, Ef. now rewrite El.
Qed.

Lemma facade_skips_missing_devices_witness :
  SmartHomeFacade_leaveHome 7 sensor_only_world =
    (Ret [],
     set_system_log
       (system_log sensor_only_world ++ ["Left home mode activated"])
       sensor_only_world) /\
  SmartHomeFacade_arriveHome 7 sensor_only_world =
    (Ret [],
     set_system_log
       (system_log sensor_only_world ++ ["Arrived home mode activated"])
       sensor_only_world).
Proof.
  apply (facade_skips_missing_devices 7 sensor_only_world).
  - unfold registry_ok. vm_compute.
    repeat constructor. eexists. reflexivity.
  - intros Hin. apply (bool_decide_pack _) in Hin. vm_compute in Hin.
    exact Hin.
  - intros Hin. apply (bool_decide_pack _) in Hin. vm_compute in Hin.
    exact Hin.
Defined.

(** X18.  A history of wrapped commands cannot be undone: when the last
    [n] commands of a remote's history are all [SecurityProxy] or
    [LogCommand] objects, as everything the facade records is, each of
    [n] calls of [undo()] throws a [TypeError]; the calls take the
    commands off the history and change nothing else. *)
Theorem wrapped_history_cannot_be_undone this cs : forall h w,
  Forall (fun c => is_wrapper c = true) cs ->
  history this w = h ++ cs ->
  exists w',
    undo_times this (length cs) w =
      (replicate (length cs) (Throw TypeError), w') /\
    history this w' = h /\
    set_remotes (remotes w) w' = w.
Proof.
  induction cs as [|c cs IH] using rev_ind; intros h w Hw Hh.
  - exists w. simpl. rewrite app_nil_r in Hh.
    split; [reflexivity|]. split; [exact Hh | apply set_remotes_same].
  - apply Forall_app in Hw as [Hcs Hc]. apply (proj1 (Forall_singleton _ _)) in Hc.
    rewrite length_app, Nat.add_1_r. simpl.
    rewrite app_assoc in Hh.
    rewrite (undo_run_last this (h ++ cs) c w Hh).
    assert (Ec : Command_undo c (with_history this (h ++ cs) w) =
                 (Throw TypeError, with_history this (h ++ cs) w))
      by (destruct c; (discriminate || reflexivity)).
    rewrite Ec.
    destruct (IH h (with_history this (h ++ cs) w) Hcs
                (history_with_history _ _ _)) as (w' & Et & Hh' & Hw').
    exists w'. rewrite Et. split; [reflexivity|]. split; [exact Hh'|].
    apply (f_equal (set_remotes (remotes w))) in Hw'.
    unfold with_history in Hw'. rewrite !set_remotes_twice in Hw'.
    now rewrite set_remotes_same in Hw'.
Qed.

Lemma wrapped_history_cannot_be_undone_witness :
  exists w',
    undo_times 7 1 refused_world = ([Throw TypeError], w') /\
    history 7 w' = [] /\
    set_remotes (remotes refused_world) w' = refused_world.
Proof.
  apply (wrapped_history_cannot_be_undone 7
           [SecurityProxy (LightOffCommand App.livingRoomLight)] []
           refused_world).
  - repeat constructor.
  - vm_compute. reflexivity.
Defined.

(** ** The simulated day *)

Lemma broadcast_run from message w :
  HouseChatRoom_sendMessage from "all" message w =
    (Ret tt,
     set_chat_log
       (chat_log w ++
          map (fun user => chat_line (user_name from) message (user_name user))
              (recipients from (chat_users w)) ++
          [chat_line (user_name from) message "all"])
       w).
Proof.
  unfold HouseChatRoom_sendMessage, bind at 1, gets. simpl.
  unfold bind. rewrite broadcast_loop.
  unfold HouseChatRoom_displayMessage, House_chatLog, modify. simpl.
  now rewrite <- app_assoc.
Qed.

Lemma setTemperature_frame s b t0 (temp : SafeInteger) w :
  heap w !! s = Some (TemperatureSensor b t0) ->
  exists w',
    setTemperature s temp w =
      (Ret (confirmation (SetTemperature temp) (TemperatureSensor b t0)), w') /\
    heap w' = <[s := TemperatureSensor b (number temp)]> (heap w) /\
    devices w' = devices w /\ users w' = users w /\
    chat_users w' = chat_users w /\ chat_log w' = chat_log w /\
    (forall h, h ∈ observers b -> strategy h w' = selected (number temp)).
Proof.
  intros Ha.
  set (w1 := set_heap (<[s := TemperatureSensor b (number temp)]> (heap w)) w).
  assert (Ha1 : heap w1 !! s = Some (TemperatureSensor b (number temp)))
    by apply lookup_insert_eq.
  destruct (forEach_call_update_sensor s b (number temp) (observers b) w1 Ha1)
    as (w' & E & N & Hh & _).
  destruct N as (Hheap & _ & Hd & Hu & Hc & Hcl & _).
  assert (Ha' : heap w' !! s = Some (TemperatureSensor b (number temp)))
    by (rewrite Hheap; exact Ha1).
  exists w'. split; [|repeat split; try assumption].
  - unfold setTemperature, bind at 1, deref at 1. rewrite Ha.
    unfold TemperatureSensor_setTemperature.
    rewrite (bind_Ret _ _ _ _ _
               (assign_run s _ (set_temperature (number temp)) w Ha)).
    simpl set_temperature. fold w1.
    assert (En : Device_notifyObservers s w1 = (Ret tt, w'))
      by (unfold Device_notifyObservers, bind, deref; now rewrite Ha1).
    rewrite (bind_Ret _ _ _ _ _ En).
    unfold bind, deref, ret. now rewrite Ha'.
  - intros h Hin. unfold strategy.
    rewrite Hh, lookup_foldl_insert, decide_True by exact Hin. reflexivity.
Qed.

Lemma find_user_name nm (l : list User) u :
  List.find (fun user => bool_decide (user_name user = nm)) l = Some u ->
  user_name u = nm.
Proof.
  intros H. apply find_some in H as [_ H].
  now apply bool_decide_eq_true in H.
Qed.

(** X19.  [simulateDay()] in a house in which 'Front Door' is a door,
    'Living Room Light' a light, 'Temperature Sensor' a sensor, and John
    and Mary are users: when the five timers have run, the door is locked
    and the light is on (the 5000 ms [leaveHome] finds the door unlocked
    and refuses to turn the light off), the sensor reads 16 and every
    heating system subscribed to it is in [ComfortMode]; the chat log has
    John's broadcast, delivered to everybody not named John and recorded
    once, then Mary's message to John twice; the second facade's remote
    holds the two wrapped commands of [leaveHome]. *)
Theorem simulated_day remote1 remote2 l dl f bf locked s b t0 john mary w :
  find_device (heap w) "Front Door" (devices w) = Ret (Some f) ->
  heap w !! f = Some (Door bf locked) ->
  find_device (heap w) "Living Room Light" (devices w) = Ret (Some l) ->
  heap w !! l = Some dl -> has_method TurnOn dl = true ->
  find_device (heap w) "Temperature Sensor" (devices w) = Ret (Some s) ->
  heap w !! s = Some (TemperatureSensor b t0) ->
  List.find (fun user => bool_decide (user_name user = "John")) (users w) =
    Some john ->
  List.find (fun user => bool_decide (user_name user = "Mary")) (users w) =
    Some mary ->
  Exists (fun user => user_name user = "John") (chat_users w) ->
  let w' := simulateDay remote1 remote2 w in
  heap w' !! f = Some (Door bf true) /\
  heap w' !! l = Some (set_isOn true dl) /\
  heap w' !! s = Some (TemperatureSensor b 16) /\
  (forall h, h ∈ observers b -> strategy h w' = ComfortMode) /\
  chat_log w' =
    chat_log w ++
      map (fun user =>
             chat_line "John" "Good morning everyone!" (user_name user))
          (recipients john (chat_users w)) ++
      [chat_line "John" "Good morning everyone!" "all";
       chat_line "Mary" "The house is getting cold!" "John";
       chat_line "Mary" "The house is getting cold!" "John"] /\
  history remote2 w' =
    [LogCommand (SecurityProxy (LightOffCommand l));
     LogCommand (DoorLockCommand f)].
Proof.
  intros Hf Hdf Hl Hdl Hml Hs Hds Hjohn Hmary Hex.
  pose proof (find_user_name _ _ _ Hjohn) as Njohn.
  pose proof (find_user_name _ _ _ Hmary) as Nmary.
  assert (Hlf : l <> f)
    by (intros ->; rewrite Hdf in Hdl; injection Hdl as <-; discriminate).
  assert (Hls : l <> s)
    by (intros ->; rewrite Hds in Hdl; injection Hdl as <-; discriminate).
  assert (Hfs : f <> s)
    by (intros ->; rewrite Hds in Hdf; discriminate).
  unfold simulateDay, run_callbacks. cbn [foldl].
  set (w0 := snd (House_systemLog "Starting day simulation..." w)).
  (* 1000 ms: arriveHome *)
  set (wN := set_remotes (<[remote1 := []]> (remotes w0)) w0).
  destruct (arriveHome_run remote1 l dl f bf locked wN Hf Hdf Hl Hdl Hml)
    as (w1 & Ea & Hh1 & Ht1 & Hd1 & Hu1 & Hc1 & Hcl1 & _).
  change (heap wN) with (heap w) in Hh1.
  change (devices wN) with (devices w) in Hd1.
  change (users wN) with (users w) in Hu1.
  change (chat_users wN) with (chat_users w) in Hc1.
  change (chat_log wN) with (chat_log w) in Hcl1.
  assert (E1 : at_1000 remote1 w0 = (Ret tt, w1)).
  { unfold at_1000, new_SmartHomeFacade, set_history.
    unfold bind at 1, modify. fold wN.
    now rewrite (bind_Ret _ _ _ _ _ Ea). }
  rewrite E1. cbn [snd].
  (* 2000 ms: John's broadcast *)
  set (w2 := set_chat_log
               (chat_log w1 ++
                  map (fun user =>
                         chat_line (user_name john) "Good morning everyone!"
                           (user_name user))
                      (recipients john (chat_users w1)) ++
                  [chat_line (user_name john) "Good morning everyone!" "all"])
               w1).
  assert (E2 : at_2000 w1 = (Ret tt, w2)).
  { unfold at_2000, bind, House_findUser. rewrite Hu1, Hjohn.
    apply broadcast_run. }
  rewrite E2. cbn [snd].
  (* 3000 ms: the sensor *)
  assert (Hn1 : forall a, name ∘ base <$> heap w1 !! a =
                          name ∘ base <$> heap w !! a).
  { intros a. rewrite Hh1.
    rewrite (names_insert _ l dl (set_isOn true dl)).
    - now apply (names_insert _ f (Door bf locked)).
    - simpl. now rewrite lookup_insert_ne.
    - now destruct dl. }
  assert (Hs2 : find_device (heap w2) "Temperature Sensor" (devices w2) =
                Ret (Some s)).
  { change (find_device (heap w1) "Temperature Sensor" (devices w1) =
            Ret (Some s)).
    rewrite Hd1, <- Hs. now apply find_device_same_names. }
  assert (Hds2 : heap w2 !! s = Some (TemperatureSensor b t0)).
  { change (heap w1 !! s = Some (TemperatureSensor b t0)).
    rewrite Hh1. now rewrite !lookup_insert_ne. }
  destruct (setTemperature_frame s b t0 (reading 16) w2 Hds2)
    as (w3 & Et & Hh3 & Hd3 & Hu3 & Hc3 & Hcl3 & Hstrat).
  change (heap w2) with (heap w1) in Hh3.
  change (devices w2) with (devices w1) in Hd3.
  change (users w2) with (users w1) in Hu3.
  change (chat_users w2) with (chat_users w1) in Hc3.
  rewrite Hh1 in Hh3. rewrite Hd1 in Hd3. rewrite Hu1 in Hu3.
  rewrite Hc1 in Hc3.
  assert (E3 : at_3000 w2 = (Ret tt, w3)).
  { unfold at_3000, bind at 1, House_findDevice. rewrite Hs2.
    now rewrite (bind_Ret _ _ _ _ _ Et). }
  rewrite E3. cbn [snd].
  (* 4000 ms: Mary's message *)
  set (w4 := set_chat_log
               (chat_log w3 ++
                  the_two_lines (user_name mary)
                    "The house is getting cold!" "John") w3).
  assert (E4 : at_4000 w3 = (Ret tt, w4)).
  { unfold at_4000, bind, House_findUser. rewrite Hu3, Hmary.
    apply direct_run with (registered := chat_users w);
      [discriminate | exact Hc3 | exact Hex]. }
  rewrite E4. cbn [snd].
  (* 5000 ms: leaveHome *)
  set (wM := set_remotes (<[remote2 := []]> (remotes w4)) w4).
  assert (Hh4 : heap wM =
                <[s := TemperatureSensor b 16]>
                  (<[l := set_isOn true dl]>
                     (<[f := Door bf false]> (heap w))))
    by exact Hh3.
  assert (Hd4 : devices wM = devices w) by exact Hd3.
  assert (Hn4 : forall a, name ∘ base <$> heap wM !! a =
                          name ∘ base <$> heap w !! a).
  { intros a. rewrite Hh4, <- Hn1, Hh1.
    apply (names_insert _ s (TemperatureSensor b t0)); [|reflexivity].
    now rewrite !lookup_insert_ne by congruence. }
  assert (Hl4 : find_device (heap wM) "Living Room Light" (devices wM) =
                Ret (Some l))
    by (rewrite Hd4, <- Hl; now apply find_device_same_names).
  assert (Hf4 : find_device (heap wM) "Front Door" (devices wM) =
                Ret (Some f))
    by (rewrite Hd4, <- Hf; now apply find_device_same_names).
  assert (Hdl4 : heap wM !! l = Some (set_isOn true dl))
    by (rewrite Hh4, lookup_insert_ne by congruence; apply lookup_insert_eq).
  assert (Hdf4 : heap wM !! f = Some (Door bf false))
    by (rewrite Hh4, !lookup_insert_ne by congruence; apply lookup_insert_eq).
  assert (Hml4 : has_method TurnOff (set_isOn true dl) = true)
    by (destruct dl; (discriminate || reflexivity)).
  destruct (leaveHome_run remote2 l _ f bf false wM Hl4 Hdl4 Hml4 Hf4 Hdf4)
    as (w5 & El & Hh5 & Ht5 & _ & _ & _ & Hcl5 & Hhist5).
  assert (E5 : at_5000 remote2 w4 = (Ret tt, w5)).
  { unfold at_5000, new_SmartHomeFacade, set_history.
    unfold bind at 1, modify. fold wM.
    now rewrite (bind_Ret _ _ _ _ _ El). }
  rewrite E5. cbn [snd].
  (* what is left *)
  rewrite Hh5, Hh4. split; [apply lookup_insert_eq|].
  split; [rewrite !lookup_insert_ne by congruence; apply lookup_insert_eq|].
  split; [rewrite lookup_insert_ne by congruence; apply lookup_insert_eq|].
  split; [|split].
  - intros h Hin. unfold strategy. rewrite Ht5. apply (Hstrat h Hin).
  - rewrite Hcl5.
    change (chat_log wM)
      with (chat_log w3 ++
              the_two_lines (user_name mary)
                "The house is getting cold!" "John").
    rewrite Hcl3.
    change (chat_log w2)
      with (chat_log w1 ++
              map (fun user =>
                     chat_line (user_name john) "Good morning everyone!"
                       (user_name user))
                  (recipients john (chat_users w1)) ++
              [chat_line (user_name john) "Good morning everyone!" "all"]).
    rewrite Hcl1, Hc1, Njohn, Nmary. unfold the_two_lines.
    rewrite <- !app_assoc. reflexivity.
  - rewrite Hhist5. unfold history, wM. simpl.
    now rewrite lookup_insert_eq.
Qed.

Lemma simulated_day_witness :
  let w' := simulateDay 7 8 App.app_world in
  heap w' !! App.frontDoor = Some (Door (mkBase "Front Door" false []) true) /\
  heap w' !! App.livingRoomLight =
    Some (Light (mkBase "Living Room Light" true [])) /\
  heap w' !! App.tempSensor =
    Some (TemperatureSensor
            (mkBase "Temperature Sensor" false [App.heatingSystem]) 16) /\
  (forall h, h ∈ [App.heatingSystem] -> strategy h w' = ComfortMode) /\
  chat_log w' =
    chat_log App.app_world ++
      map (fun user =>
             chat_line "John" "Good morning everyone!" (user_name user))
          (recipients App.john (chat_users App.app_world)) ++
      [chat_line "John" "Good morning everyone!" "all";
       chat_line "Mary" "The house is getting cold!" "John";
       chat_line "Mary" "The house is getting cold!" "John"] /\
  history 8 w' =
    [LogCommand (SecurityProxy (LightOffCommand App.livingRoomLight));
     LogCommand (DoorLockCommand App.frontDoor)].
Proof.
  apply (simulated_day 7 8 App.livingRoomLight
           (App.new_Light "Living Room Light")
           App.frontDoor (mkBase "Front Door" false []) true
           App.tempSensor
           (mkBase "Temperature Sensor" false [App.heatingSystem]) 20
           App.john App.mary App.app_world);
    try (vm_compute; reflexivity).
  vm_compute. constructor. reflexivity.
Defined.

(** X20.  [sendMessage] never throws and only ever appends to the chat
    log: whoever sends, to whatever name, the call returns and the world
    it leaves is the one it found with some lines, none, two or more,
    added at the end of the chat log. *)
Theorem sendMessage_only_appends from to message w :
  exists lines,
    HouseChatRoom_sendMessage from to message w =
      (Ret tt, set_chat_log (chat_log w ++ lines) w) /\
    (to <> "all" -> lines = [] \/
                    lines = the_two_lines (user_name from) message to).
Proof.
  destruct (decide (to = "all")) as [->|Hall].
  - eexists. split; [apply broadcast_run | congruence].
  - destruct (List.find (fun user => bool_decide (user_name user = to))
                (chat_users w)) as [r|] eqn:Hfind.
    + exists (the_two_lines (user_name from) message to).
      split; [|now right].
      apply direct_run with (registered := chat_users w);
        [exact Hall | reflexivity |].
      apply find_some in Hfind as [Hin Hr].
      apply Exists_exists. exists r.
      split; [now apply list_elem_of_In|].
      now apply bool_decide_eq_true in Hr.
    + exists []. split; [|now left].
      unfold HouseChatRoom_sendMessage, bind, gets.
      rewrite bool_decide_eq_false_2 by exact Hall. rewrite Hfind.
      unfold ret. now rewrite app_nil_r, set_chat_log_same.
Qed.
